(** * Break-even estimator of [scripts/generate_llm_comparison_chart.py]

    The script samples a range of request volumes, evaluates a linear cost
    curve (cloud API) and an affine cost curve (self-hosted model) on every
    sample, and marks as "break-even point" the sample where the absolute
    difference of the two curves is smallest (lines 12-33 of the script).
    It then draws the two curves, the marker and the notes (lines 24-59) and
    formats the texts of the chart (lines 37, 54 and 74).

    The NumPy arrays are lists; the element type is a parameter of the
    development, with two instances:
    - [float], the kernel's IEEE 754 binary64 numbers, the element type
      NumPy really uses: the script's own configuration and the concrete
      inputs of the examples are evaluated in it, and the general
      properties are instantiated at it;
    - [Q], exact rational arithmetic, the arithmetic the specification
      reasons in, kept for comparison.

    The general properties are proved for every element type from what the
    script computes: from the order of the computed gaps, never from
    algebraic laws that rounding breaks. *)

From Stdlib Require Import List Bool Arith Lia ZArith QArith Qabs Lqa.
From Stdlib Require Import Floats Uint63 SpecFloat FloatOps FloatAxioms.
From Stdlib Require Ascii String DecimalString DecimalN DecimalPos Qpower.
Import ListNotations.

Set Warnings "-inexact-float".

(** ** The element type of the arrays *)

Class Num (A : Type) : Type := {
  add : A -> A -> A;
  sub : A -> A -> A;
  mul : A -> A -> A;
  div : A -> A -> A;
  absv : A -> A;
  (** [geb x y] is the comparison [x >= y]; it is false when either side is
      not a number. *)
  geb : A -> A -> bool;
  isnan : A -> bool;
  of_nat : nat -> A
}.

Declare Scope num_scope.
Delimit Scope num_scope with num.
Infix "+" := add : num_scope.
Infix "-" := sub : num_scope.
Infix "*" := mul : num_scope.
Infix "/" := div : num_scope.

#[export] Instance Num_Q : Num Q := {
  add := Qplus;
  sub := Qminus;
  mul := Qmult;
  div := Qdiv;
  absv := Qabs;
  geb := fun x y => Qle_bool y x;
  isnan := fun _ => false;
  of_nat := fun n => inject_Z (Z.of_nat n)
}.

#[export] Instance Num_float : Num float := {
  add := PrimFloat.add;
  sub := PrimFloat.sub;
  mul := PrimFloat.mul;
  div := PrimFloat.div;
  absv := PrimFloat.abs;
  geb := fun x y => PrimFloat.leb y x;
  isnan := PrimFloat.is_nan;
  of_nat := fun n => PrimFloat.of_uint63 (Uint63.of_Z (Z.of_nat n))
}.

(** ** The script *)

Section Script.
Context {A : Type} {num : Num A}.
Local Open Scope num_scope.

(** *** Array operations of NumPy used by the script *)

(** [a * k] for an array [a] and a scalar [k]. *)
Definition arr_scale (a : list A) (k : A) : list A :=
  map (fun v => v * k) a.

(** [k + a] for a scalar [k] and an array [a]. *)
Definition arr_shift (k : A) (a : list A) : list A :=
  map (fun v => k + v) a.

(** [a - b], element by element. *)
Definition arr_sub (a b : list A) : list A :=
  map (fun p => fst p - snd p) (combine a b).

(** [np.abs(a)]. *)
Definition arr_abs (a : list A) : list A :=
  map absv a.

(** The scan of [np.argmin] over the elements after the first: [i] is the
    index of the head of [xs], [mp] the smallest value so far and [min_ind]
    its index.  A later element replaces the minimum only when it is not
    [>= mp], so among equal values the first one is kept; a NaN stops the
    scan and is the answer. *)
Fixpoint argmin_from (xs : list A) (i : nat) (mp : A) (min_ind : nat) : nat :=
  match xs with
  | [] => min_ind
  | x :: xs' =>
      if geb x mp then argmin_from xs' (S i) mp min_ind
      else if isnan x then i
      else argmin_from xs' (S i) x i
  end.

(** [np.argmin(a)]; [None] stands for the [ValueError] NumPy raises on an
    empty array. *)
Definition argmin (a : list A) : option nat :=
  match a with
  | [] => None
  | x :: xs => Some (if isnan x then 0%nat else argmin_from xs 1 x 0)
  end.

(** [x == y] as the comparison has it: false when either side is not a
    number. *)
Definition num_eqb (x y : A) : bool := geb x y && geb y x.

(** [np.linspace(start, stop, num)] with the default [endpoint=True], as
    NumPy computes it from [div = num - 1] and [delta = stop - start]:
    sample [i] is [i * step + start] with [step = delta / div]; it is
    [(i / div) * delta + start] when that step is zero, and
    [i * delta + start] when [div] is zero, that is for one sample.  From
    two samples on the last one is overwritten with [stop] itself. *)
Definition linspace (start stop : A) (n : nat) : list A :=
  let delta := stop - start in
  match n with
  | 0%nat => []
  | 1%nat => [of_nat 0 * delta + start]
  | S d =>
      let step := delta / of_nat d in
      (if num_eqb step (of_nat 0)
       then map (fun i => of_nat i / of_nat d * delta + start) (seq 0 d)
       else map (fun i => of_nat i * step + start) (seq 0 d))
      ++ [stop]
  end.

(** *** Configuration: the constants of lines 16, 21 and 22 *)

Record config : Type := Config {
  rateA : A;      (** cost per request of the linear curve, [0.002] *)
  rateB : A;      (** marginal cost of the affine curve, [0.0002] *)
  offsetB : A     (** [initial_investment] *)
}.

(** Line 16: [cloud_cost = requests * 0.002]. *)
Definition cloud_cost (c : config) (requests : list A) : list A :=
  arr_scale requests (rateA c).

(** Line 22: [self_hosted_cost = initial_investment + (requests * 0.0002)]. *)
Definition self_hosted_cost (c : config) (requests : list A) : list A :=
  arr_shift (offsetB c) (arr_scale requests (rateB c)).

(** The two cost formulas at one volume. *)
Definition costA (c : config) (v : A) : A := v * rateA c.
Definition costB (c : config) (v : A) : A := offsetB c + v * rateB c.

(** The argument of [np.argmin] on line 31. *)
Definition cost_gap (c : config) (requests : list A) : list A :=
  arr_abs (arr_sub (cloud_cost c requests) (self_hosted_cost c requests)).

(** The three variables the script sets on lines 31-33. *)
Record break_even : Type := BreakEven {
  break_even_idx : nat;
  break_even_requests : A;
  break_even_cost : A
}.

(** Lines 31-33.  [None] is an exception: [ValueError] of [np.argmin], or
    [IndexError] of one of the two subscripts. *)
Definition break_even_point (c : config) (requests : list A)
  : option break_even :=
  match argmin (cost_gap c requests) with
  | None => None
  | Some idx =>
      match nth_error requests idx, nth_error (cloud_cost c requests) idx with
      | Some v, Some k => Some (BreakEven idx v k)
      | _, _ => None
      end
  end.

(** *** Vocabulary of the properties *)

(** The signed and the absolute cost difference at one volume; line 31
    minimises the latter. *)
Definition cost_diff (c : config) (v : A) : A := costA c v - costB c v.
Definition abs_gap (c : config) (v : A) : A := absv (cost_diff c v).

(** The gap at the sample the script marks. *)
Definition min_gap (c : config) (requests : list A) : option A :=
  match break_even_point c requests with
  | None => None
  | Some r => nth_error (cost_gap c requests) (break_even_idx r)
  end.

(** The numbers the script reports about the break-even point: the volume
    and the cost that the marker and the annotation of lines 36-59 show. *)
Definition reported (r : break_even) : list A :=
  [break_even_requests r; break_even_cost r].

(** [x < y], read off the comparison the scan uses. *)
Definition ltb (x y : A) : bool := negb (geb x y).

(** A well-formed domain is strictly increasing. *)
Fixpoint strictly_increasing (l : list A) : bool :=
  match l with
  | [] => true
  | x :: t =>
      match t with
      | [] => true
      | y :: _ => ltb x y && strictly_increasing t
      end
  end.

(** A well-formed domain holds no negative volume. *)
Definition non_negative (l : list A) : bool :=
  forallb (fun v => geb v (of_nat 0)) l.

(** [k] is the first index at which the array [a] attains its minimum:
    no element is below [a[k]], and every earlier one is strictly above. *)
Definition first_minimum (a : list A) (k : nat) : Prop :=
  exists m,
    nth_error a k = Some m
    /\ (forall j y, nth_error a j = Some y -> geb y m = true)
    /\ (forall j y, (j < k)%nat -> nth_error a j = Some y -> ltb m y = true).

(** No element of the array is a NaN. *)
Definition all_numbers (a : list A) : Prop :=
  forall x, In x a -> isnan x = false.

(** *** Conditions on the computed arrays

    What exact arithmetic would guarantee of the computed gaps, and binary64
    rounding can break; each is stated of the values the script computes. *)

(** Every computed gap equals [g], as [==] has it. *)
Definition gaps_equal (c : config) (requests : list A) (g : A) : Prop :=
  forall x, In x (cost_gap c requests) -> num_eqb x g = true.

(** One curve is below the other at every sample. *)
Definition no_crossing (c : config) (requests : list A) : Prop :=
  (forall v, In v requests -> ltb (costA c v) (costB c v) = true)
  \/ (forall v, In v requests -> ltb (costB c v) (costA c v) = true).

(** Along the array no later element is below an earlier one. *)
Definition never_decreasing (a : list A) : Prop :=
  forall i j x y, (i < j)%nat ->
    nth_error a i = Some x -> nth_error a j = Some y -> geb y x = true.

(** Along the array every later element is below every earlier one. *)
Definition decreasing (a : list A) : Prop :=
  forall i j x y, (i < j)%nat ->
    nth_error a i = Some x -> nth_error a j = Some y -> ltb y x = true.

(** Along the array every later element is above every earlier one. *)
Definition increasing (a : list A) : Prop :=
  forall i j x y, (i < j)%nat ->
    nth_error a i = Some x -> nth_error a j = Some y -> ltb x y = true.

(** Where the affine curve is still the dearer one, the gap is smaller
    than at every earlier sample. *)
Definition gap_falls_while_affine_dearer (c : config) (requests : list A)
  : Prop :=
  forall i j u w, (i < j)%nat ->
    nth_error requests i = Some u -> nth_error requests j = Some w ->
    ltb (costA c w) (costB c w) = true ->
    ltb (abs_gap c w) (abs_gap c u) = true.

(** A later sample that has the smaller gap under [c] has it under [c'] as
    well. *)
Definition nearer_stays_nearer (c c' : config) (requests : list A) : Prop :=
  forall i j u w, (i < j)%nat ->
    nth_error requests i = Some u -> nth_error requests j = Some w ->
    ltb (abs_gap c w) (abs_gap c u) = true ->
    ltb (abs_gap c' w) (abs_gap c' u) = true.

(** A test on all pairs of an earlier and a later element. *)
Fixpoint all_pairs {T : Type} (P : T -> T -> bool) (l : list T) : bool :=
  match l with
  | [] => true
  | x :: t => forallb (P x) t && all_pairs P t
  end.

(** *** Lines 12-33 as assignments to the script's variables *)

(** The variables of lines 12-33; [None] is a name not bound yet. *)
Record env : Type := Env {
  var_requests : option (list A);
  var_cloud_cost : option (list A);
  var_initial_investment : option A;
  var_self_hosted_cost : option (list A);
  var_break_even_idx : option nat;
  var_break_even_requests : option A;
  var_break_even_cost : option A
}.

(** How a statement can fail: a name read before it is bound, the
    [ValueError] of [np.argmin], the [IndexError] of a subscript. *)
Inductive failure : Type := NameError | ArgminError | SubscriptError.

Definition stmt : Type := env -> env + failure.

Definition seq_stmt (s1 s2 : stmt) : stmt :=
  fun e => match s1 e with inl e' => s2 e' | inr f => inr f end.

(** Line 12: [requests = np.linspace(start, stop, num)]. *)
Definition line12 (start stop : A) (n : nat) : stmt :=
  fun e =>
    inl (Env (Some (linspace start stop n)) (var_cloud_cost e)
           (var_initial_investment e) (var_self_hosted_cost e)
           (var_break_even_idx e) (var_break_even_requests e)
           (var_break_even_cost e)).

(** Line 16: [cloud_cost = requests * rateA]. *)
Definition line16 (rate : A) : stmt :=
  fun e =>
    match var_requests e with
    | None => inr NameError
    | Some r =>
        inl (Env (var_requests e) (Some (arr_scale r rate))
               (var_initial_investment e) (var_self_hosted_cost e)
               (var_break_even_idx e) (var_break_even_requests e)
               (var_break_even_cost e))
    end.

(** Line 21: [initial_investment = offsetB]. *)
Definition line21 (offset : A) : stmt :=
  fun e =>
    inl (Env (var_requests e) (var_cloud_cost e) (Some offset)
           (var_self_hosted_cost e) (var_break_even_idx e)
           (var_break_even_requests e) (var_break_even_cost e)).

(** Line 22: [self_hosted_cost = initial_investment + (requests * rateB)]. *)
Definition line22 (rate : A) : stmt :=
  fun e =>
    match var_initial_investment e, var_requests e with
    | Some k, Some r =>
        inl (Env (var_requests e) (var_cloud_cost e)
               (var_initial_investment e)
               (Some (arr_shift k (arr_scale r rate)))
               (var_break_even_idx e) (var_break_even_requests e)
               (var_break_even_cost e))
    | _, _ => inr NameError
    end.

(** Line 31:
    [break_even_idx = np.argmin(np.abs(cloud_cost - self_hosted_cost))]. *)
Definition line31 : stmt :=
  fun e =>
    match var_cloud_cost e, var_self_hosted_cost e with
    | Some a, Some b =>
        match argmin (arr_abs (arr_sub a b)) with
        | None => inr ArgminError
        | Some i =>
            inl (Env (var_requests e) (var_cloud_cost e)
                   (var_initial_investment e) (var_self_hosted_cost e)
                   (Some i) (var_break_even_requests e)
                   (var_break_even_cost e))
        end
    | _, _ => inr NameError
    end.

(** Line 32: [break_even_requests = requests[break_even_idx]]. *)
Definition line32 : stmt :=
  fun e =>
    match var_requests e, var_break_even_idx e with
    | Some r, Some i =>
        match nth_error r i with
        | None => inr SubscriptError
        | Some v =>
            inl (Env (var_requests e) (var_cloud_cost e)
                   (var_initial_investment e) (var_self_hosted_cost e)
                   (var_break_even_idx e) (Some v) (var_break_even_cost e))
        end
    | _, _ => inr NameError
    end.

(** Line 33: [break_even_cost = cloud_cost[break_even_idx]]. *)
Definition line33 : stmt :=
  fun e =>
    match var_cloud_cost e, var_break_even_idx e with
    | Some a, Some i =>
        match nth_error a i with
        | None => inr SubscriptError
        | Some k =>
            inl (Env (var_requests e) (var_cloud_cost e)
                   (var_initial_investment e) (var_self_hosted_cost e)
                   (var_break_even_idx e) (var_break_even_requests e)
                   (Some k))
        end
    | _, _ => inr NameError
    end.

(** Lines 12-33 in order, with the script's literals as parameters. *)
Definition run_script (c : config) (start stop : A) (n : nat) : stmt :=
  seq_stmt (line12 start stop n)
    (seq_stmt (line16 (rateA c))
       (seq_stmt (line21 (offsetB c))
          (seq_stmt (line22 (rateB c))
             (seq_stmt line31 (seq_stmt line32 line33))))).

End Script.

Arguments config A : clear implicits.
Arguments break_even A : clear implicits.
Arguments env A : clear implicits.

(** ** The script's own configuration, lines 12-22 *)

Module Exact.
Definition initial_investment : Q := 10000.
Definition script_config : config Q :=
  Config (2 # 1000) (2 # 10000) initial_investment.
Definition requests : list Q := linspace 0 100000 1000.

(** The worked example of the specification: rates [1] and [0.1], offset
    [5], on the interval from 0 to 10. *)
Definition example_config : config Q := Config 1 (1 # 10) 5.

(** Where the two lines of a configuration meet,
    [offsetB / (rateA - rateB)]. *)
Definition crossing (c : config Q) : Q :=
  offsetB c / (rateA c - rateB c).

(** The interval from 0 to 10 cut into [n] equal parts, [n + 1] samples:
    [np.linspace(0, 10, n + 1)]; [interval 10] is the integers 0..10. *)
Definition interval (n : nat) : list Q := linspace 0 10 (S n).
End Exact.

Module Float64.
Definition initial_investment : float := 10000%float.
Definition script_config : config float :=
  Config 0.002%float 0.0002%float initial_investment.
Definition requests : list float := linspace 0%float 100000%float 1000.
Definition example_config : config float := Config 1%float 0.1%float 5%float.
Definition interval (n : nat) : list float := linspace 0%float 10%float (S n).

(** The same grid with the samples counted in binary, as [np.arange]
    counts them; it is [linspace] and evaluates faster. *)
Fixpoint arange_from (k : Z) (d : nat) : list Z :=
  match d with
  | O => []
  | S d' => k :: arange_from (k + 1) d'
  end.

Definition of_Z (k : Z) : float := PrimFloat.of_uint63 (Uint63.of_Z k).

Definition linspace_by_Z (start stop : float) (n : nat) : list float :=
  let delta := (stop - start)%float in
  match n with
  | 0%nat => []
  | 1%nat => [of_Z 0 * delta + start]%float
  | S d =>
      let dz := of_Z (Z.of_nat d) in
      let step := (delta / dz)%float in
      (if num_eqb step (of_Z 0)
       then map (fun k => of_Z k / dz * delta + start)%float (arange_from 0 d)
       else map (fun k => of_Z k * step + start)%float (arange_from 0 d))
      ++ [stop]
  end.

(** The rational number a binary64 number stands for; none for an infinity
    or a NaN. *)
Definition exact_value (x : float) : option Q :=
  match Prim2SF x with
  | S754_zero _ => Some 0
  | S754_finite s m e =>
      Some ((if s then - inject_Z (Zpos m) else inject_Z (Zpos m))
            * Qpower 2 e)
  | S754_infinity _ | S754_nan => None
  end.
End Float64.

(** ** The chart the script draws, lines 24-59 *)

(** The exceptions the script can end with. *)
Inductive exception : Type := ValueError | IndexError.

Section Chart.
Context {A : Type} {num : Num A}.
Local Open Scope num_scope.

(** [a / k] for an array [a] and a scalar [k]. *)
Definition arr_div (a : list A) (k : A) : list A :=
  map (fun v => v / k) a.

(** The polyline of one [ax.plot(x, y)]; Matplotlib raises [ValueError]
    when the two arrays differ in length. *)
Definition plot (x y : list A) : option (list (A * A)) :=
  if (length x =? length y)%nat then Some (combine x y) else None.

(** What the script puts on the axes. *)
Record chart : Type := Chart {
  cloud_curve : list (A * A);         (** line 25 *)
  self_hosted_curve : list (A * A);   (** line 27 *)
  marker : A * A;                     (** line 36, the red dot *)
  axvline : A;                        (** line 38 *)
  axhline : A;                        (** line 39 *)
  cloud_note : A * A;                 (** line 43, [xy] *)
  self_hosted_note : A * A;           (** line 49, [xy] *)
  break_even_note : (A * A) * (A * A) (** lines 55-56, [xy] and [xytext] *)
}.

(** Lines 24-59 in the order the script runs them: the two curves, the
    break-even point, its marker and guide lines, the two curve notes with
    their subscript [800], and the break-even note. *)
Definition draw_chart (c : config A) (requests : list A) : chart + exception :=
  let x := arr_div requests (of_nat 1000) in
  match plot x (cloud_cost c requests), plot x (self_hosted_cost c requests) with
  | Some cloud, Some self_hosted =>
      match argmin (cost_gap c requests) with
      | None => inr ValueError
      | Some _ =>
          match break_even_point c requests with
          | None => inr IndexError
          | Some r =>
              let bx := break_even_requests r / of_nat 1000 in
              let by_ := break_even_cost r in
              match nth_error (cloud_cost c requests) 800 with
              | None => inr IndexError
              | Some a =>
                  match nth_error (self_hosted_cost c requests) 800 with
                  | None => inr IndexError
                  | Some b =>
                      inl (Chart cloud self_hosted (bx, by_) bx by_
                             (of_nat 80, a) (of_nat 80, b)
                             ((bx, by_),
                              (bx + of_nat 15, by_ - of_nat 3000)))
                  end
              end
          end
      end
  | _, _ => inr ValueError
  end.

End Chart.

Arguments chart A : clear implicits.

(** ** The texts of the chart, lines 37, 54 and 74

    Python's [format(x, ".pf")] for a float: the decimal numeral of [x]
    rounded to [p] places, correctly rounded with ties to even, and with
    [","] the integer digits in groups of three. *)

Module PyFormat.
Import Ascii String DecimalString.
Local Open Scope string_scope.

Definition sign (s : bool) : string := if s then "-" else EmptyString.

(** The integer nearest to [n * 2^e], the even one when two are as near. *)
Definition round_half_even (n : N) (e : Z) : N :=
  match e with
  | Z0 => n
  | Zpos p => n * 2 ^ Npos p
  | Zneg p =>
      let d := (2 ^ Npos p)%N in
      let q := (n / d)%N in
      let r := (n mod d)%N in
      match (2 * r ?= d)%N with
      | Lt => q
      | Gt => (q + 1)%N
      | Eq => if N.even q then q else (q + 1)%N
      end
  end.

Definition digits (n : N) : string :=
  NilZero.string_of_uint (N.to_uint n).

(** Commas every three digits, on the digits read from the right; [k]
    counts the digits since the last comma. *)
Fixpoint group_rev (l : list ascii) (k : nat) : list ascii :=
  match l with
  | [] => []
  | d :: t =>
      match t with
      | [] => [d]
      | _ :: _ =>
          if (k =? 2)%nat then d :: ","%char :: group_rev t 0
          else d :: group_rev t (S k)
      end
  end.

Definition group3 (s : string) : string :=
  string_of_list_ascii (rev (group_rev (rev (list_ascii_of_string s)) 0)).

Fixpoint zeros (k : nat) : string :=
  match k with
  | O => EmptyString
  | S k' => String "0" (zeros k')
  end.

Definition pad_left (width : nat) (s : string) : string :=
  zeros (width - length s) ++ s.

(** The numeral of [n / 10^prec] with [prec] decimals. *)
Definition fixed (grouping : bool) (prec : nat) (n : N) : string :=
  let p := (10 ^ N.of_nat prec)%N in
  let int_part := digits (n / p) in
  let int_part := if grouping then group3 int_part else int_part in
  match prec with
  | O => int_part
  | S _ => int_part ++ "." ++ pad_left prec (digits (n mod p))
  end.

(** [format(x, ",.pf")] when [grouping], [format(x, ".pf")] otherwise. *)
Definition format_f (grouping : bool) (prec : nat) (x : float) : string :=
  match Prim2SF x with
  | S754_nan => "nan"
  | S754_infinity s => sign s ++ "inf"
  | S754_zero s => sign s ++ fixed grouping prec 0
  | S754_finite s m e =>
      sign s
      ++ fixed grouping prec
           (round_half_even (Npos m * 10 ^ N.of_nat prec) e)
  end.

(** Line 74, the tick formatter of the cost axis:
    [lambda x, p: f'${x:,.0f}']. *)
Definition currency {P : Type} (x : float) (p : P) : string :=
  "$" ++ format_f true 0 x.

Definition newline : string := String "010"%char EmptyString.

(** Line 37, the legend entry of the marker. *)
Definition marker_label (r : break_even float) : string :=
  "Break-even Point (~"
  ++ format_f false 0 (break_even_requests r / 1000)%float
  ++ "K requests)".

(** Line 54, the text of the break-even note. *)
Definition break_even_text (r : break_even float) : string :=
  "Break-even:" ++ newline
  ++ format_f false 1 (break_even_requests r / 1000)%float
  ++ "K requests" ++ newline
  ++ "$" ++ format_f true 0 (break_even_cost r).

(** Classes of characters. *)
Definition not_comma (a : ascii) : bool := negb (Ascii.eqb a ","%char).

Definition is_digit (a : ascii) : bool :=
  match a with
  | "0" | "1" | "2" | "3" | "4" | "5" | "6" | "7" | "8" | "9" => true
  | _ => false
  end%char.

Definition digit_or_comma (a : ascii) : bool :=
  match a with
  | "0" | "1" | "2" | "3" | "4" | "5" | "6" | "7" | "8" | "9" | "," => true
  | _ => false
  end%char.

(** A whole number written with thousands separators, read from its last
    character: digits only, a comma after every third digit and nowhere
    else, and at least one digit before the first comma; [k] counts the
    digits since the last comma. *)
Fixpoint grouped_rev (l : list ascii) (k : nat) : bool :=
  match l with
  | [] => (0 <? k)%nat
  | a :: t =>
      if is_digit a then (k <? 3)%nat && grouped_rev t (S k)
      else if Ascii.eqb a ","%char then (k =? 3)%nat && grouped_rev t 0
      else false
  end.

Definition well_grouped (s : string) : bool :=
  grouped_rev (rev (list_ascii_of_string s)) 0.

(** Reading a tick label back: the sign and the whole number it shows.  A
    label is read only when it is ["$"], an optional minus sign, and a
    well-grouped numeral. *)
Definition remove_commas (s : string) : string :=
  string_of_list_ascii (filter not_comma (list_ascii_of_string s)).

Definition read_currency (s : string) : option (bool * N) :=
  match s with
  | String "$"%char t =>
      let body := match t with String "-"%char u => u | _ => t end in
      let neg := match t with String "-"%char _ => true | _ => false end in
      if well_grouped body
      then option_map (fun d => (neg, N.of_uint d))
             (NilZero.uint_of_string (remove_commas body))
      else None
  | _ => None
  end.

(** The exact value of a finite binary64 number of mantissa [m] and
    exponent [e]. *)
Definition value (m : positive) (e : Z) : Q :=
  inject_Z (Zpos m) * Qpower 2 e.

End PyFormat.

(** ** Properties that hold for every element type *)

Section Shape.
Context {A : Type} {num : Num A}.
Local Open Scope num_scope.

Lemma cloud_cost_length (c : config A) (requests : list A) :
  length (cloud_cost c requests) = length requests.
Proof. unfold cloud_cost, arr_scale. apply length_map. Qed.

Lemma cloud_cost_nth (c : config A) (requests : list A) (i : nat) :
  nth_error (cloud_cost c requests) i
  = option_map (costA c) (nth_error requests i).
Proof. unfold cloud_cost, arr_scale. apply nth_error_map. Qed.

Lemma self_hosted_cost_nth (c : config A) (requests : list A) (i : nat) :
  nth_error (self_hosted_cost c requests) i
  = option_map (costB c) (nth_error requests i).
Proof.
  unfold self_hosted_cost, arr_shift, arr_scale.
  rewrite map_map. apply nth_error_map.
Qed.

(** The array handed to [np.argmin] holds, sample by sample, the absolute
    difference of the two cost formulas. *)
Lemma cost_gap_map (c : config A) (requests : list A) :
  cost_gap c requests
  = map (fun v => absv (costA c v - costB c v)) requests.
Proof.
  unfold cost_gap, arr_abs, arr_sub, cloud_cost, self_hosted_cost,
    arr_shift, arr_scale, costA, costB.
  induction requests as [| v vs IH]; simpl; [reflexivity |].
  f_equal. exact IH.
Qed.

Lemma cost_gap_length (c : config A) (requests : list A) :
  length (cost_gap c requests) = length requests.
Proof. rewrite cost_gap_map. apply length_map. Qed.

Lemma cost_gap_nth (c : config A) (requests : list A) (i : nat) :
  nth_error (cost_gap c requests) i
  = option_map (fun v => absv (costA c v - costB c v)) (nth_error requests i).
Proof. rewrite cost_gap_map. apply nth_error_map. Qed.

(** The scan answers the index it started from or one it has visited. *)
Lemma argmin_from_range (xs : list A) :
  forall i mp min_ind,
    argmin_from xs i mp min_ind = min_ind
    \/ (i <= argmin_from xs i mp min_ind < i + length xs)%nat.
Proof.
  induction xs as [| x xs IH]; intros i mp min_ind; simpl.
  - left. reflexivity.
  - destruct (geb x mp).
    + destruct (IH (S i) mp min_ind) as [E | R]; [left; exact E | right; lia].
    + destruct (isnan x); [right; lia |].
      destruct (IH (S i) x i) as [E | R]; right; lia.
Qed.

Lemma argmin_lt_length (a : list A) (k : nat) :
  argmin a = Some k -> (k < length a)%nat.
Proof.
  destruct a as [| x xs]; simpl; [discriminate |].
  intros E. injection E as <-.
  destruct (isnan x); [lia |].
  destruct (argmin_from_range xs 1 x 0) as [-> | R]; lia.
Qed.

Lemma argmin_none (a : list A) : argmin a = None <-> a = [].
Proof. destruct a; simpl; split; intro H; (reflexivity || discriminate). Qed.

(** What lines 31-33 compute once [np.argmin] has answered. *)
Lemma break_even_point_unfold (c : config A) (requests : list A) (r : break_even A) :
  break_even_point c requests = Some r <->
  exists v,
    argmin (cost_gap c requests) = Some (break_even_idx r)
    /\ nth_error requests (break_even_idx r) = Some v
    /\ r = BreakEven (break_even_idx r) v (costA c v).
Proof.
  unfold break_even_point. split.
  - destruct (argmin (cost_gap c requests)) as [k |] eqn:E; [| discriminate].
    rewrite cloud_cost_nth.
    destruct (nth_error requests k) as [v |] eqn:Ev; simpl; [| discriminate].
    intros H. injection H as <-. simpl. exists v. auto.
  - intros (v & E & Ev & Er). rewrite E, cloud_cost_nth, Ev. simpl.
    rewrite Er. reflexivity.
Qed.

Lemma break_even_point_some (c : config A) (requests : list A) :
  requests <> [] -> exists r, break_even_point c requests = Some r.
Proof.
  intros Hne. unfold break_even_point.
  destruct (argmin (cost_gap c requests)) as [k |] eqn:E.
  - pose proof (argmin_lt_length _ _ E) as Hk.
    rewrite cost_gap_length in Hk.
    rewrite cloud_cost_nth.
    destruct (nth_error requests k) as [v |] eqn:Ev.
    + simpl. eauto.
    + apply nth_error_None in Ev. lia.
  - apply argmin_none in E.
    apply (f_equal (@length A)) in E. rewrite cost_gap_length in E.
    destruct requests; [congruence | discriminate].
Qed.

End Shape.

(** ** The scan finds the first minimum

    This needs of the comparison only what IEEE 754 guarantees on numbers:
    that [>=] is total and transitive. *)

Section Order.
Context {A : Type} {num : Num A}.

Hypothesis geb_total :
  forall x y : A, isnan x = false -> isnan y = false ->
    geb x y = true \/ geb y x = true.
Hypothesis geb_trans :
  forall x y z : A, geb x y = true -> geb y z = true -> geb x z = true.

Lemma ltb_true (x y : A) : ltb x y = true <-> geb x y = false.
Proof. unfold ltb. destruct (geb x y); simpl; intuition congruence. Qed.

Lemma geb_refl (x : A) : isnan x = false -> geb x x = true.
Proof. intros N. destruct (geb_total x x N N); assumption. Qed.

Lemma ltb_geb (x y : A) :
  isnan x = false -> isnan y = false -> ltb x y = true -> geb y x = true.
Proof.
  intros Nx Ny L. apply ltb_true in L.
  destruct (geb_total x y Nx Ny); congruence.
Qed.

Lemma ltb_geb_trans (x y z : A) :
  ltb x y = true -> geb z y = true -> ltb x z = true.
Proof.
  intros L G. apply ltb_true. apply ltb_true in L.
  destruct (geb x z) eqn:E; [| reflexivity].
  rewrite (geb_trans x z y E G) in L. discriminate.
Qed.

Lemma geb_ltb_trans (x y z : A) :
  isnan x = false -> isnan y = false ->
  ltb x y = true -> ltb y z = true -> ltb x z = true.
Proof.
  intros Nx Ny L1 L2. apply ltb_true. apply ltb_true in L2.
  destruct (geb x z) eqn:E; [| reflexivity].
  rewrite (geb_trans y x z (ltb_geb x y Nx Ny L1) E) in L2. discriminate.
Qed.

(** On numbers, a list whose neighbours are in strict order has all its
    pairs in strict order. *)
Lemma strictly_increasing_head (x : A) (t : list A) :
  all_numbers (x :: t) ->
  strictly_increasing (x :: t) = true ->
  strictly_increasing t = true /\ forall y, In y t -> ltb x y = true.
Proof.
  revert x. induction t as [| y t IH]; intros x Hnum H.
  - split; [reflexivity | intros y []].
  - change (ltb x y && strictly_increasing (y :: t) = true) in H.
    apply andb_true_iff in H. destruct H as [Hxy Ht].
    split; [exact Ht |].
    intros z [<- | Hz]; [exact Hxy |].
    apply (geb_ltb_trans x y z).
    + apply Hnum. left. reflexivity.
    + apply Hnum. right. left. reflexivity.
    + exact Hxy.
    + apply (IH y); [| exact Ht | exact Hz].
      intros w Hw. apply Hnum. right. exact Hw.
Qed.

Lemma strictly_increasing_increasing (l : list A) :
  all_numbers l -> strictly_increasing l = true -> increasing l.
Proof.
  induction l as [| v vs IH]; intros Hnum H i j x y Hij Hi Hj.
  - destruct i; discriminate.
  - destruct (strictly_increasing_head v vs Hnum H) as [Hvs Hv].
    destruct j as [| j]; [lia |]. simpl in Hj.
    destruct i as [| i]; simpl in Hi.
    + injection Hi as <-. apply Hv. eapply nth_error_In. exact Hj.
    + apply (IH (fun w Hw => Hnum w (or_intror Hw)) Hvs i j);
        [lia | exact Hi | exact Hj].
Qed.

(** Invariant of the scan: either nothing below [mp] was met and the index
    is unchanged, or the answer is the first position [i + j] holding the
    least element [m] of [xs], which is below [mp]. *)
Lemma argmin_from_spec (xs : list A) :
  forall i mp min_ind,
    all_numbers xs -> isnan mp = false ->
    (argmin_from xs i mp min_ind = min_ind
     /\ forall y, In y xs -> geb y mp = true)
    \/ exists j m,
        argmin_from xs i mp min_ind = (i + j)%nat
        /\ nth_error xs j = Some m
        /\ ltb m mp = true
        /\ (forall y, In y xs -> geb y m = true)
        /\ (forall j' y, (j' < j)%nat -> nth_error xs j' = Some y ->
              ltb m y = true).
Proof.
  induction xs as [| x xs IH]; intros i mp min_ind Hn Nmp; simpl.
  - left. split; [reflexivity | intros y []].
  - assert (Nx : isnan x = false) by (apply Hn; left; reflexivity).
    assert (Hn' : all_numbers xs) by (intros y Hy; apply Hn; right; exact Hy).
    destruct (geb x mp) eqn:G.
    + destruct (IH (S i) mp min_ind Hn' Nmp)
        as [[E Hall] | (j & m & E & Hj & Hlt & Hall & Hfirst)].
      * left. split; [exact E |].
        intros y [<- | Hy]; [exact G | apply Hall; exact Hy].
      * right. exists (S j), m.
        assert (Nm : isnan m = false) by (apply Hn'; eapply nth_error_In; eauto).
        assert (Lx : ltb m x = true) by (eapply ltb_geb_trans; eauto).
        repeat split.
        -- rewrite E. lia.
        -- exact Hj.
        -- exact Hlt.
        -- intros y [<- | Hy]; [apply ltb_geb; assumption | apply Hall; exact Hy].
        -- intros [| j'] y Hlt' Hy; simpl in Hy.
           ++ injection Hy as <-. exact Lx.
           ++ apply (Hfirst j'); [lia | exact Hy].
    + rewrite Nx.
      destruct (IH (S i) x i Hn' Nx)
        as [[E Hall] | (j & m & E & Hj & Hlt & Hall & Hfirst)].
      * right. exists 0%nat, x. repeat split.
        -- rewrite E. lia.
        -- apply ltb_true. exact G.
        -- intros y [<- | Hy]; [apply geb_refl; exact Nx | apply Hall; exact Hy].
        -- intros j' y Hlt'. lia.
      * right. exists (S j), m.
        assert (Nm : isnan m = false) by (apply Hn'; eapply nth_error_In; eauto).
        repeat split.
        -- rewrite E. lia.
        -- exact Hj.
        -- apply (geb_ltb_trans m x mp Nm Nx Hlt). apply ltb_true. exact G.
        -- intros y [<- | Hy]; [apply ltb_geb; assumption | apply Hall; exact Hy].
        -- intros [| j'] y Hlt' Hy; simpl in Hy.
           ++ injection Hy as <-. exact Hlt.
           ++ apply (Hfirst j'); [lia | exact Hy].
Qed.

Lemma argmin_first_minimum (a : list A) (k : nat) :
  all_numbers a -> argmin a = Some k -> first_minimum a k.
Proof.
  destruct a as [| x xs]; simpl; [discriminate |].
  intros Hn E. injection E as <-.
  assert (Nx : isnan x = false) by (apply Hn; left; reflexivity).
  assert (Hn' : all_numbers xs) by (intros y Hy; apply Hn; right; exact Hy).
  rewrite Nx.
  destruct (argmin_from_spec xs 1 x 0 Hn' Nx)
    as [[E Hall] | (j & m & E & Hj & Hlt & Hall & Hfirst)]; rewrite E.
  - exists x. repeat split.
    + intros j y Hy. apply nth_error_In in Hy.
      destruct Hy as [<- | Hy]; [apply geb_refl; exact Nx | apply Hall; exact Hy].
    + intros j y Hj. lia.
  - exists m. simpl.
    assert (Nm : isnan m = false) by (apply Hn'; eapply nth_error_In; eauto).
    repeat split.
    + exact Hj.
    + intros j' y Hy. apply nth_error_In in Hy.
      destruct Hy as [<- | Hy]; [apply ltb_geb; assumption | apply Hall; exact Hy].
    + intros [| j'] y Hlt' Hy; simpl in Hy.
      * injection Hy as <-. exact Hlt.
      * apply (Hfirst j'); [lia | exact Hy].
Qed.

End Order.

(** ** The comparison of binary64 numbers is total and transitive *)

Section Binary64.

Lemma Prim2SF_number (x : float) :
  PrimFloat.is_nan x = false -> Prim2SF x <> S754_nan.
Proof.
  intros N. unfold Prim2SF. rewrite N.
  destruct (PrimFloat.is_zero x); [discriminate |].
  destruct (PrimFloat.is_infinity x); [discriminate |].
  destruct (Z.frexp x) as [r e].
  destruct (shr_fexp prec emax _ _ _) as [shr e'].
  destruct (shr_m shr); discriminate.
Qed.

Lemma SFcompare_opp (a b : spec_float) :
  SFcompare b a = option_map CompOpp (SFcompare a b).
Proof.
  destruct a as [sa | sa | | sa ma ea], b as [sb | sb | | sb mb eb];
    try destruct sa; try destruct sb; simpl; try reflexivity.
  all: rewrite (Z.compare_antisym ea eb), !Pos.compare_cont_spec,
    (Pos.compare_antisym ma mb).
  all: destruct (ea ?= eb)%Z; simpl; try reflexivity.
  all: destruct (ma ?= mb)%positive; reflexivity.
Qed.

Lemma SFleb_total (a b : spec_float) :
  a <> S754_nan -> b <> S754_nan -> SFleb a b = true \/ SFleb b a = true.
Proof.
  intros Na Nb. unfold SFleb. rewrite (SFcompare_opp a b).
  destruct (SFcompare a b) as [[| |] |] eqn:E; simpl; auto.
  destruct a, b; simpl in E; congruence.
Qed.

Lemma SFleb_trans (a b c : spec_float) :
  SFleb a b = true -> SFleb b c = true -> SFleb a c = true.
Proof.
  unfold SFleb.
  destruct a as [sa | sa | | sa ma ea], b as [sb | sb | | sb mb eb],
    c as [sc | sc | | sc mc ec];
    try destruct sa; try destruct sb; try destruct sc; simpl;
    try reflexivity; try discriminate; try (intros; assumption).
  all: rewrite ?Pos.compare_cont_spec; simpl.
  all: destruct (Z.compare_spec ea eb), (Z.compare_spec eb ec),
    (Z.compare_spec ea ec);
    try lia; try reflexivity; try discriminate; try (intros; assumption);
    subst.
  all: destruct (Pos.compare_spec ma mb), (Pos.compare_spec mb mc),
    (Pos.compare_spec ma mc);
    simpl; try lia; try reflexivity; try discriminate.
Qed.

Lemma float_geb_total (x y : float) :
  isnan x = false -> isnan y = false -> geb x y = true \/ geb y x = true.
Proof.
  simpl. intros Nx Ny. rewrite !leb_spec.
  apply SFleb_total; apply Prim2SF_number; assumption.
Qed.

Lemma float_geb_trans (x y z : float) :
  geb x y = true -> geb y z = true -> geb x z = true.
Proof.
  simpl. rewrite !leb_spec. intros H1 H2. exact (SFleb_trans _ _ _ H2 H1).
Qed.

(** Two binary64 numbers that [==] tells apart are different. *)
Lemma float_geb_nan (x y : float) : isnan x = true -> geb x y = false.
Proof.
  simpl. intros N. rewrite leb_spec.
  assert (E : Prim2SF x = S754_nan) by (unfold Prim2SF; rewrite N; reflexivity).
  rewrite E. unfold SFleb, SFcompare. destruct (Prim2SF y); reflexivity.
Qed.

Lemma float_neq (x y : float) :
  PrimFloat.is_nan x = false -> PrimFloat.eqb x y = false -> x <> y.
Proof.
  intros N E ->. unfold PrimFloat.is_nan in N. rewrite E in N. discriminate.
Qed.

Lemma all_numbers_forallb {A : Type} {num : Num A} (a : list A) :
  forallb (fun x => negb (isnan x)) a = true -> all_numbers a.
Proof.
  intros H x Hx. rewrite forallb_forall in H.
  apply H in Hx. destruct (isnan x); [discriminate | reflexivity].
Qed.

End Binary64.

(** ** Exact arithmetic *)

Section ExactOrder.
Local Open Scope Q_scope.

Lemma Q_geb_iff (x y : Q) : geb x y = true <-> y <= x.
Proof. simpl. apply Qle_bool_iff. Qed.

Lemma Q_ltb_iff (x y : Q) : ltb x y = true <-> x < y.
Proof.
  unfold ltb. pose proof (Q_geb_iff x y) as G.
  destruct (geb x y); simpl; split; intro H; try discriminate.
  - exfalso. apply (Qlt_not_le _ _ H). apply G. reflexivity.
  - apply Qnot_le_lt. intro L. apply G in L. discriminate.
  - reflexivity.
Qed.

Lemma Q_geb_total (x y : Q) :
  isnan x = false -> isnan y = false -> geb x y = true \/ geb y x = true.
Proof.
  intros _ _. rewrite !Q_geb_iff.
  destruct (Qlt_le_dec x y) as [L | L]; [right; apply Qlt_le_weak; exact L | left; exact L].
Qed.

Lemma Q_geb_trans (x y z : Q) :
  geb x y = true -> geb y z = true -> geb x z = true.
Proof. rewrite !Q_geb_iff. intros H1 H2. exact (Qle_trans _ _ _ H2 H1). Qed.

Lemma Q_all_numbers (a : list Q) : all_numbers a.
Proof. intros x _. reflexivity. Qed.

End ExactOrder.

Section ExactEstimator.
Local Open Scope Q_scope.
Implicit Types (c : config Q) (requests : list Q).

Lemma exact_cost_diff c v :
  cost_diff c v == (rateA c - rateB c) * v - offsetB c.
Proof. unfold cost_diff, costA, costB. cbn [sub add mul Num_Q]. ring. Qed.

Lemma exact_abs_gap c v : abs_gap c v = Qabs (cost_diff c v).
Proof. reflexivity. Qed.

Lemma cost_diff_increasing c x y :
  rateB c < rateA c -> x < y -> cost_diff c x < cost_diff c y.
Proof.
  intros Hr Hxy. rewrite !exact_cost_diff.
  assert (0 < (rateA c - rateB c) * (y - x)) by (apply Qmult_lt_0_compat; lra).
  lra.
Qed.

Lemma cost_diff_decreasing c x y :
  rateA c < rateB c -> x < y -> cost_diff c y < cost_diff c x.
Proof.
  intros Hr Hxy. rewrite !exact_cost_diff.
  assert (0 < (rateB c - rateA c) * (y - x)) by (apply Qmult_lt_0_compat; lra).
  lra.
Qed.

Lemma cost_diff_constant c x :
  rateA c == rateB c -> cost_diff c x == - offsetB c.
Proof. intros Hr. rewrite exact_cost_diff, Hr. ring. Qed.

Lemma cost_diff_sign c v :
  (costA c v < costB c v <-> cost_diff c v < 0)
  /\ (costB c v < costA c v <-> 0 < cost_diff c v)
  /\ (costB c v <= costA c v <-> 0 <= cost_diff c v)
  /\ (costA c v == costB c v <-> cost_diff c v == 0).
Proof.
  unfold cost_diff. cbn [sub Num_Q].
  repeat split; intros H; lra.
Qed.

(** The estimator in exact arithmetic: the marked sample has the least
    absolute gap, and every earlier sample has a strictly larger one. *)
Lemma exact_break_even c requests r :
  break_even_point c requests = Some r ->
  nth_error requests (break_even_idx r) = Some (break_even_requests r)
  /\ break_even_cost r = costA c (break_even_requests r)
  /\ (forall j w, nth_error requests j = Some w ->
        abs_gap c (break_even_requests r) <= abs_gap c w)
  /\ (forall j w, (j < break_even_idx r)%nat ->
        nth_error requests j = Some w ->
        abs_gap c (break_even_requests r) < abs_gap c w).
Proof.
  intros H. apply break_even_point_unfold in H.
  destruct H as (v & Harg & Hv & Hr).
  apply (argmin_first_minimum Q_geb_total Q_geb_trans) in Harg;
    [| apply Q_all_numbers].
  destruct Harg as (m & Hm & Hmin & Hfirst).
  rewrite cost_gap_nth, Hv in Hm. simpl in Hm. injection Hm as <-.
  rewrite Hr. simpl. repeat split.
  - exact Hv.
  - intros j w Hw. apply Q_geb_iff. apply (Hmin j).
    rewrite cost_gap_nth, Hw. reflexivity.
  - intros j w Hj Hw. apply Q_ltb_iff. apply (Hfirst j); [exact Hj |].
    rewrite cost_gap_nth, Hw. reflexivity.
Qed.

End ExactEstimator.

(** ** Pointwise comparison of two arrays, by evaluation *)

Lemma pairwise_forallb {A : Type} (P : A -> A -> bool) (l1 l2 : list A) :
  forallb (fun p => P (fst p) (snd p)) (combine l1 l2) = true ->
  forall i a b,
    nth_error l1 i = Some a -> nth_error l2 i = Some b -> P a b = true.
Proof.
  revert l2. induction l1 as [| x l1 IH]; intros [| y l2] H i a b Ha Hb;
    destruct i; simpl in *; try discriminate.
  - injection Ha as <-. injection Hb as <-.
    apply andb_true_iff in H. apply H.
  - apply andb_true_iff in H. apply (IH l2 (proj2 H) i); assumption.
Qed.

(** ** Conditions on all pairs of samples, by evaluation *)

Lemma all_pairs_nth {T : Type} (P : T -> T -> bool) (l : list T) :
  all_pairs P l = true ->
  forall i j x y, (i < j)%nat ->
    nth_error l i = Some x -> nth_error l j = Some y -> P x y = true.
Proof.
  induction l as [| a l IH]; intros H i j x y Hij Hx Hy.
  - destruct i; discriminate.
  - simpl in H. apply andb_true_iff in H. destruct H as [Ha Hl].
    destruct j as [| j]; [lia |]. simpl in Hy.
    destruct i as [| i].
    + simpl in Hx. injection Hx as <-.
      apply (proj1 (forallb_forall _ _) Ha). eapply nth_error_In. exact Hy.
    + simpl in Hx. apply (IH Hl i j); [lia | assumption | assumption].
Qed.

Lemma forallb_seq (f : nat -> bool) (a len n : nat) :
  forallb f (seq a len) = true -> (a <= n < a + len)%nat -> f n = true.
Proof.
  intros H Hn. apply (proj1 (forallb_forall _ _) H). apply in_seq. exact Hn.
Qed.

Lemma map_seq_arange {B : Type} (g : Z -> B) (d : nat) :
  forall a, map (fun i => g (Z.of_nat i)) (seq a d)
            = map g (Float64.arange_from (Z.of_nat a) d).
Proof.
  induction d as [| d IH]; intros a; [reflexivity |].
  cbn [seq map Float64.arange_from]. f_equal.
  rewrite (IH (S a)). rewrite Nat2Z.inj_succ, Z.add_1_r. reflexivity.
Qed.

Lemma linspace_by_Z_eq (start stop : float) (n : nat) :
  linspace start stop n = Float64.linspace_by_Z start stop n.
Proof.
  destruct n as [| [| d]]; try reflexivity.
  unfold linspace, Float64.linspace_by_Z. cbv zeta.
  pose proof (map_seq_arange
                (fun k => (Float64.of_Z k / Float64.of_Z (Z.of_nat (S d))
                           * (stop - start) + start)%float) (S d) 0) as E1.
  pose proof (map_seq_arange
                (fun k => (Float64.of_Z k
                           * ((stop - start) / Float64.of_Z (Z.of_nat (S d)))
                           + start)%float) (S d) 0) as E2.
  change (Z.of_nat 0) with 0%Z in E1, E2.
  rewrite <- E1, <- E2. reflexivity.
Qed.

Section Checks.
Context {A : Type} {num : Num A}.

Lemma never_decreasing_check (a : list A) :
  all_pairs (fun x y => geb y x) a = true -> never_decreasing a.
Proof. intros H i j x y. apply (all_pairs_nth _ _ H). Qed.

Lemma decreasing_check (a : list A) :
  all_pairs (fun x y => ltb y x) a = true -> decreasing a.
Proof. intros H i j x y. apply (all_pairs_nth _ _ H). Qed.

Lemma increasing_check (a : list A) :
  all_pairs (fun x y => ltb x y) a = true -> increasing a.
Proof. intros H i j x y. apply (all_pairs_nth _ _ H). Qed.

Lemma gap_falls_check (c : config A) (requests : list A) :
  all_pairs
    (fun u w => implb (ltb (costA c w) (costB c w))
                      (ltb (abs_gap c w) (abs_gap c u))) requests = true ->
  gap_falls_while_affine_dearer c requests.
Proof.
  intros H i j u w Hij Hu Hw Hd.
  pose proof (all_pairs_nth _ _ H i j u w Hij Hu Hw) as P.
  cbv beta in P. rewrite Hd in P. exact P.
Qed.

Lemma nearer_stays_nearer_check (c c' : config A) (requests : list A) :
  all_pairs
    (fun u w => implb (ltb (abs_gap c w) (abs_gap c u))
                      (ltb (abs_gap c' w) (abs_gap c' u))) requests = true ->
  nearer_stays_nearer c c' requests.
Proof.
  intros H i j u w Hij Hu Hw Hd.
  pose proof (all_pairs_nth _ _ H i j u w Hij Hu Hw) as P.
  cbv beta in P. rewrite Hd in P. exact P.
Qed.

Lemma gaps_equal_check (c : config A) (requests : list A) (g : A) :
  forallb (fun x => num_eqb x g) (cost_gap c requests) = true ->
  gaps_equal c requests g.
Proof. intros H x. apply (proj1 (forallb_forall _ _) H). Qed.

Lemma no_crossing_check (c : config A) (requests : list A) :
  forallb (fun v => ltb (costA c v) (costB c v)) requests
  || forallb (fun v => ltb (costB c v) (costA c v)) requests = true ->
  no_crossing c requests.
Proof.
  intros H. apply orb_true_iff in H. destruct H as [H | H]; [left | right];
    intros v; apply (proj1 (forallb_forall _ _) H).
Qed.

End Checks.

(** ** The script's configuration (C3) *)

(** C3. With the constants of the script (rates 0.002 and 0.0002, offset
    10000, 1000 samples from 0 to 100000) the cloud cost is below the
    self-hosted cost at every sample, so the curves do not cross on the
    sampled range; the marked point is the last sample, index 999 at volume
    100000, where the costs are 200 and 10020 and the gap is
    10000 - 0.0018 * 100000 = 9820.  This is so both in binary64, as the
    script runs, and in exact arithmetic. *)
Theorem script_break_even_is_last_sample :
  (length Float64.requests = 1000%nat
   /\ (forall i a b,
         nth_error (cloud_cost Float64.script_config Float64.requests) i = Some a ->
         nth_error (self_hosted_cost Float64.script_config Float64.requests) i = Some b ->
         PrimFloat.ltb a b = true)
   /\ break_even_point Float64.script_config Float64.requests
      = Some (BreakEven 999 100000%float 200%float)
   /\ nth_error (self_hosted_cost Float64.script_config Float64.requests) 999
      = Some 10020%float
   /\ min_gap Float64.script_config Float64.requests = Some 9820%float)
  /\
  (length Exact.requests = 1000%nat
   /\ (forall i a b,
         nth_error (cloud_cost Exact.script_config Exact.requests) i = Some a ->
         nth_error (self_hosted_cost Exact.script_config Exact.requests) i = Some b ->
         a < b)
   /\ exists r g,
        break_even_point Exact.script_config Exact.requests = Some r
        /\ break_even_idx r = 999%nat
        /\ break_even_requests r == 100000
        /\ break_even_cost r == 200
        /\ min_gap Exact.script_config Exact.requests = Some g
        /\ g == 10000 - (18 # 10000) * 100000
        /\ g == 9820).
Proof.
  split.
  - split; [vm_compute; reflexivity |].
    split.
    + apply (pairwise_forallb PrimFloat.ltb). vm_compute. reflexivity.
    + repeat split; vm_compute; reflexivity.
  - split; [vm_compute; reflexivity |].
    split.
    + intros i a b Ha Hb. apply Q_ltb_iff.
      revert i a b Ha Hb. apply (pairwise_forallb ltb).
      vm_compute. reflexivity.
    + eexists. eexists.
      split; [vm_compute; reflexivity |].
      split; [reflexivity |].
      split; [reflexivity |].
      split; [reflexivity |].
      split; [vm_compute; reflexivity |].
      split; reflexivity.
Qed.

(** ** The marked sample is the first minimum of the gap (C1) *)

Section FirstMinimum.
Context {A : Type} {num : Num A}.

Hypothesis geb_total :
  forall x y : A, isnan x = false -> isnan y = false ->
    geb x y = true \/ geb y x = true.
Hypothesis geb_trans :
  forall x y z : A, geb x y = true -> geb y z = true -> geb x z = true.

(** C1, as the script has it.  On a non-empty domain whose gaps are all
    numbers, the estimator answers the first index at which the absolute
    cost difference attains its minimum over all samples: no sample has a
    smaller gap and every earlier sample has a strictly larger one.  With
    that index it reports the volume at the index and the cost of the linear
    curve there; the cost of the affine curve is not among the reported
    values.  The comparison is only required to be total and transitive, as
    it is for exact numbers and for binary64. *)
Theorem break_even_is_first_minimum (c : config A) (requests : list A) :
  requests <> [] ->
  all_numbers (cost_gap c requests) ->
  exists r,
    break_even_point c requests = Some r
    /\ first_minimum (cost_gap c requests) (break_even_idx r)
    /\ nth_error requests (break_even_idx r) = Some (break_even_requests r)
    /\ nth_error (cost_gap c requests) (break_even_idx r)
       = Some (abs_gap c (break_even_requests r))
    /\ reported r
       = [break_even_requests r; costA c (break_even_requests r)].
Proof.
  intros Hne Hnum.
  destruct (break_even_point_some c requests Hne) as [r Hr].
  exists r. split; [exact Hr |].
  apply break_even_point_unfold in Hr. destruct Hr as (v & Harg & Hv & Hrec).
  split; [apply (argmin_first_minimum geb_total geb_trans); assumption |].
  rewrite cost_gap_nth, Hv. rewrite Hrec. simpl.
  repeat split.
Qed.

End FirstMinimum.

(** The script's own run satisfies the conditions of C1. *)
Lemma break_even_is_first_minimum_witness :
  exists r,
    break_even_point Float64.script_config Float64.requests = Some r
    /\ first_minimum (cost_gap Float64.script_config Float64.requests)
         (break_even_idx r)
    /\ nth_error Float64.requests (break_even_idx r)
       = Some (break_even_requests r)
    /\ nth_error (cost_gap Float64.script_config Float64.requests)
         (break_even_idx r)
       = Some (abs_gap Float64.script_config (break_even_requests r))
    /\ reported r
       = [break_even_requests r;
          costA Float64.script_config (break_even_requests r)].
Proof.
  apply (break_even_is_first_minimum float_geb_total float_geb_trans).
  - vm_compute. discriminate.
  - apply all_numbers_forallb. vm_compute. reflexivity.
Defined.

(** C1, as stated, fails: the claim has the estimator return both costs at
    the marked sample.  In the script's own run the reported values are the
    volume 100000 and the cloud cost 200; the self-hosted cost at that
    sample, 10020, is not reported. *)
Lemma break_even_reports_one_cost :
  ~ (exists r,
       break_even_point Float64.script_config Float64.requests = Some r
       /\ In (costA Float64.script_config (break_even_requests r)) (reported r)
       /\ In (costB Float64.script_config (break_even_requests r)) (reported r)).
Proof.
  intros (r & Hr & _ & HB).
  assert (E : break_even_point Float64.script_config Float64.requests
              = Some (BreakEven 999 100000%float 200%float))
    by (vm_compute; reflexivity).
  rewrite E in Hr. injection Hr as <-.
  vm_compute in HB.
  destruct HB as [H | [H | []]]; revert H; apply float_neq; reflexivity.
Qed.

(** Why C1 asks for gaps that are numbers: in binary64 a product can
    overflow.  With both rates 10 on the domain 0, 1e308 the second gap is
    [inf - inf], a NaN, and [np.argmin] answers its index although the gap
    at index 0 is 0. *)
Lemma binary64_overflow_marks_nan :
  nth_error (cost_gap (Config 10 10 0)%float [0; 1e308]%float) 0
    = Some 0%float
  /\ option_map isnan
       (nth_error (cost_gap (Config 10 10 0)%float [0; 1e308]%float) 1)
     = Some true
  /\ option_map break_even_idx
       (break_even_point (Config 10 10 0)%float [0; 1e308]%float)
     = Some 1%nat.
Proof. repeat split; vm_compute; reflexivity. Qed.

(** ** The index is in bounds (C4), totality (C9) *)

(** C4. On a non-empty domain the index the estimator answers is a valid
    subscript of the domain, [0 <= break_even_idx < len(requests)], and the
    reported volume and cost are the elements of [requests] and of
    [cloud_cost] at that index.  This holds for every element type and every
    configuration, numbers or not. *)
Theorem break_even_idx_in_bounds
  {A : Type} {num : Num A} (c : config A) (requests : list A) :
  requests <> [] ->
  exists r,
    break_even_point c requests = Some r
    /\ (0 <= break_even_idx r < length requests)%nat
    /\ nth_error requests (break_even_idx r) = Some (break_even_requests r)
    /\ nth_error (cloud_cost c requests) (break_even_idx r)
       = Some (break_even_cost r).
Proof.
  intros Hne.
  destruct (break_even_point_some c requests Hne) as [r Hr].
  exists r. split; [exact Hr |].
  apply break_even_point_unfold in Hr. destruct Hr as (v & Harg & Hv & Hrec).
  apply argmin_lt_length in Harg. rewrite cost_gap_length in Harg.
  split; [lia |].
  rewrite cloud_cost_nth, Hv, Hrec. simpl. split; reflexivity.
Qed.

Lemma break_even_idx_in_bounds_witness :
  exists r,
    break_even_point Float64.script_config Float64.requests = Some r
    /\ (0 <= break_even_idx r < length Float64.requests)%nat
    /\ nth_error Float64.requests (break_even_idx r)
       = Some (break_even_requests r)
    /\ nth_error (cloud_cost Float64.script_config Float64.requests)
         (break_even_idx r)
       = Some (break_even_cost r).
Proof.
  apply (break_even_idx_in_bounds Float64.script_config Float64.requests).
  vm_compute. discriminate.
Defined.

(** C9. The estimator is total on non-empty domains: whatever the
    configuration and the samples, it produces a result and raises nothing.
    On the empty domain it produces no result: [np.argmin] raises. *)
Theorem break_even_point_total
  {A : Type} {num : Num A} (c : config A) (requests : list A) :
  (requests <> [] -> exists r, break_even_point c requests = Some r)
  /\ (requests = [] -> break_even_point c requests = None).
Proof.
  split.
  - apply break_even_point_some.
  - intros ->. reflexivity.
Qed.

(** ** No hidden state (C10) *)

Section NoHiddenState.
Context {A : Type} {num : Num A}.

(** What a run of lines 12-33 ends with, from any environment. *)
Lemma run_script_outcome (c : config A) (start stop : A) (n : nat) (e : env A) :
  run_script c start stop n e
  = match break_even_point c (linspace start stop n) with
    | None => inr ArgminError
    | Some r =>
        inl (Env (Some (linspace start stop n))
               (Some (cloud_cost c (linspace start stop n)))
               (Some (offsetB c))
               (Some (self_hosted_cost c (linspace start stop n)))
               (Some (break_even_idx r))
               (Some (break_even_requests r))
               (Some (break_even_cost r)))
    end.
Proof.
  set (requests := linspace start stop n).
  unfold run_script, seq_stmt, line12, line16, line21, line22, line31,
    line32, line33.
  cbn [var_requests var_cloud_cost var_initial_investment
       var_self_hosted_cost var_break_even_idx var_break_even_requests
       var_break_even_cost].
  fold requests. fold (cloud_cost c requests).
  fold (self_hosted_cost c requests). fold (cost_gap c requests).
  unfold break_even_point.
  destruct (argmin (cost_gap c requests)) as [k |] eqn:E; [| reflexivity].
  cbn [var_requests var_cloud_cost var_initial_investment
       var_self_hosted_cost var_break_even_idx var_break_even_requests
       var_break_even_cost].
  pose proof (argmin_lt_length _ _ E) as Hk. rewrite cost_gap_length in Hk.
  destruct (nth_error requests k) as [v |] eqn:Ev.
  - cbn [var_requests var_cloud_cost var_initial_investment
         var_self_hosted_cost var_break_even_idx var_break_even_requests
         var_break_even_cost].
    rewrite cloud_cost_nth, Ev. reflexivity.
  - apply nth_error_None in Ev. lia.
Qed.

(** C10.  The break-even computation has no hidden state.  Lines 12-33 are
    run as assignments to the script's variables, from any environment:
    whatever the variables hold when the run starts, unbound or left there
    by an earlier run, the run ends with [requests], [cloud_cost],
    [initial_investment], [self_hosted_cost], [break_even_idx],
    [break_even_requests] and [break_even_cost] set to what the constants
    and the arguments of [np.linspace] alone determine, the last three being
    the result of the estimator; or it ends with the [ValueError] of
    [np.argmin], when there is no sample.  Every variable a line reads has
    been assigned by an earlier line of the same run, so no name is read
    unbound and no subscript is out of range.  Hence two runs with the same
    constants end alike, and a second run on the environment the first has
    left changes nothing. *)
Theorem run_script_no_hidden_state
  (c : config A) (start stop : A) (n : nat) :
  (forall e : env A,
     run_script c start stop n e
     = match break_even_point c (linspace start stop n) with
       | None => inr ArgminError
       | Some r =>
           inl (Env (Some (linspace start stop n))
                  (Some (cloud_cost c (linspace start stop n)))
                  (Some (offsetB c))
                  (Some (self_hosted_cost c (linspace start stop n)))
                  (Some (break_even_idx r))
                  (Some (break_even_requests r))
                  (Some (break_even_cost r)))
       end)
  /\ (forall e1 e2 : env A,
        run_script c start stop n e1 = run_script c start stop n e2)
  /\ (forall e e' : env A,
        run_script c start stop n e = inl e' ->
        run_script c start stop n e' = inl e').
Proof.
  split; [apply run_script_outcome |]. split.
  - intros e1 e2. rewrite (run_script_outcome c start stop n e1).
    rewrite (run_script_outcome c start stop n e2). reflexivity.
  - intros e e' He. rewrite (run_script_outcome c start stop n e').
    rewrite (run_script_outcome c start stop n e) in He. exact He.
Qed.

(** A line run out of order does read an unbound name: the environment is
    not decoration. *)
Lemma line31_needs_line16 (e : env A) :
  var_cloud_cost e = None -> line31 e = inr NameError.
Proof. intros H. unfold line31. rewrite H. reflexivity. Qed.

End NoHiddenState.

(** The script's own run in binary64, from any environment: index 999,
    volume 100000, cost 200. *)
Lemma script_run_outcome (e : env float) :
  exists e',
    run_script Float64.script_config 0%float 100000%float 1000 e = inl e'
    /\ var_break_even_idx e' = Some 999%nat
    /\ var_break_even_requests e' = Some 100000%float
    /\ var_break_even_cost e' = Some 200%float.
Proof.
  rewrite run_script_outcome.
  change (linspace 0%float 100000%float 1000) with Float64.requests.
  assert (E : break_even_point Float64.script_config Float64.requests
              = Some (BreakEven 999 100000%float 200%float))
    by (vm_compute; reflexivity).
  rewrite E. eexists. split; [reflexivity |]. repeat split.
Qed.

(** ** The sampling grid, line 12 *)

Section Grid.
Context {A : Type} {num : Num A}.
Local Open Scope num_scope.

(** From two samples on, the grid is its computed samples followed by
    [stop]. *)
Lemma linspace_body (start stop : A) (d : nat) :
  exists body,
    linspace start stop (S (S d)) = body ++ [stop]
    /\ length body = S d
    /\ forall i, (i < S d)%nat ->
         nth_error body i
         = Some (if num_eqb ((stop - start) / of_nat (S d)) (of_nat 0)
                 then of_nat i / of_nat (S d) * (stop - start) + start
                 else of_nat i * ((stop - start) / of_nat (S d)) + start).
Proof.
  unfold linspace.
  destruct (num_eqb ((stop - start) / of_nat (S d)) (of_nat 0));
    eexists; (split; [reflexivity |]);
    (split; [rewrite length_map, length_seq; reflexivity |]);
    intros i Hi; rewrite nth_error_map, nth_error_seq;
    apply Nat.ltb_lt in Hi; rewrite Hi; reflexivity.
Qed.

Lemma linspace_length (start stop : A) (n : nat) :
  length (linspace start stop n) = n.
Proof.
  destruct n as [| [| d]]; try reflexivity.
  destruct (linspace_body start stop d) as (body & -> & L & _).
  rewrite length_app, L. simpl. lia.
Qed.

Lemma linspace_last (start stop : A) (n : nat) :
  (2 <= n)%nat -> nth_error (linspace start stop n) (n - 1) = Some stop.
Proof.
  intros Hn. destruct n as [| [| d]]; try lia.
  destruct (linspace_body start stop d) as (body & -> & L & _).
  rewrite nth_error_app2 by lia.
  replace (S (S d) - 1 - length body)%nat with 0%nat by lia. reflexivity.
Qed.

End Grid.

(** ** The worked example and the sampling resolution (C6) *)

Section Resolution.
Local Open Scope Q_scope.

(** The evenly spaced samples of [0, stop] in exact arithmetic: sample [i]
    of [n + 1] is [stop * i / n]. *)
Lemma linspace_nth (stop : Q) (n i : nat) :
  (1 <= n)%nat -> (i <= n)%nat ->
  exists w,
    nth_error (linspace 0 stop (S n)) i = Some w
    /\ w == stop * inject_Z (Z.of_nat i) / inject_Z (Z.of_nat n).
Proof.
  intros Hn Hi.
  assert (Hpos : 0 < inject_Z (Z.of_nat n)).
  { change 0 with (inject_Z 0). rewrite <- Zlt_Qlt. lia. }
  destruct n as [| d]; [lia |].
  destruct (linspace_body 0 stop d) as (body & -> & L & Hbody).
  destruct (Nat.eq_dec i (S d)) as [-> | Hne].
  - exists stop. split.
    + rewrite nth_error_app2 by lia.
      replace (S d - length body)%nat with 0%nat by lia. reflexivity.
    + field. lra.
  - eexists. split.
    + rewrite nth_error_app1 by lia. apply Hbody. lia.
    + destruct (num_eqb ((stop - 0) / of_nat (S d)) (of_nat 0))%num;
        cbn [of_nat add sub mul div Num_Q]; field; lra.
Qed.

(** The gap of the example at sample [i] of [n + 1], when that sample is the
    one next to the crossing. *)
Lemma example_gap_near_crossing (n i : nat) (w : Q) :
  (1 <= n)%nat ->
  (-9 <= 18 * Z.of_nat i - 10 * Z.of_nat n <= 9)%Z ->
  w == 10 * inject_Z (Z.of_nat i) / inject_Z (Z.of_nat n) ->
  abs_gap Exact.example_config w <= 9 / (2 * inject_Z (Z.of_nat n)).
Proof.
  intros Hn Hi Hw.
  set (N := inject_Z (Z.of_nat n)) in *.
  set (I := inject_Z (Z.of_nat i)) in *.
  assert (Hpos : 0 < N).
  { unfold N. change 0 with (inject_Z 0). rewrite <- Zlt_Qlt. lia. }
  assert (Ht : 0 < / (2 * N)) by (apply Qinv_lt_0_compat; lra).
  assert (Hlo : -9 <= 18 * I - 10 * N).
  { unfold I, N. change (-9) with (inject_Z (-9)).
    change 18 with (inject_Z 18). change 10 with (inject_Z 10).
    rewrite <- !inject_Z_mult. unfold Qminus.
    rewrite <- inject_Z_opp, <- inject_Z_plus, <- Zle_Qle. lia. }
  assert (Hhi : 18 * I - 10 * N <= 9).
  { unfold I, N. change 9 with (inject_Z 9).
    change 18 with (inject_Z 18). change 10 with (inject_Z 10).
    rewrite <- !inject_Z_mult. unfold Qminus.
    rewrite <- inject_Z_opp, <- inject_Z_plus, <- Zle_Qle. lia. }
  assert (E : cost_diff Exact.example_config w == (18 * I - 10 * N) * / (2 * N)).
  { rewrite exact_cost_diff, Hw. simpl. field. lra. }
  rewrite exact_abs_gap. apply Qabs_Qle_condition. rewrite E.
  unfold Qdiv. split.
  - setoid_replace (- (9 * / (2 * N))) with ((-9) * / (2 * N)) by ring.
    apply Qmult_le_compat_r; [exact Hlo | apply Qlt_le_weak; exact Ht].
  - apply Qmult_le_compat_r; [exact Hhi | apply Qlt_le_weak; exact Ht].
Qed.

(** In exact arithmetic the least gap of the example with [n] intervals is
    at most [9 / (2 n)], for every [n]: half the change of the cost
    difference from one sample to the next. *)
Lemma example_min_gap_bound (n : nat) :
  (1 <= n)%nat ->
  exists g,
    min_gap Exact.example_config (Exact.interval n) = Some g
    /\ 0 <= g <= 9 / (2 * inject_Z (Z.of_nat n)).
Proof.
  intros Hn.
  set (requests := Exact.interval n).
  assert (Hne : requests <> []).
  { destruct (linspace_nth 10 n 0 Hn (Nat.le_0_l n)) as (w & Hw & _).
    change (linspace 0 10 (S n)) with requests in Hw. intros E. rewrite E in Hw. discriminate. }
  destruct (break_even_point_some Exact.example_config requests Hne) as [r Hr].
  destruct (exact_break_even _ _ _ Hr) as (Hv & _ & Hmin & _).
  exists (abs_gap Exact.example_config (break_even_requests r)). split.
  - unfold min_gap. rewrite Hr, cost_gap_nth, Hv. reflexivity.
  - split; [rewrite exact_abs_gap; apply Qabs_nonneg |].
    set (i := Z.to_nat ((10 * Z.of_nat n + 9) / 18)).
    assert (Hi : (-9 <= 18 * Z.of_nat i - 10 * Z.of_nat n <= 9)%Z).
    { unfold i. rewrite Z2Nat.id by (apply Z.div_pos; lia).
      pose proof (Z.div_mod (10 * Z.of_nat n + 9) 18 ltac:(lia)) as D.
      pose proof (Z.mod_pos_bound (10 * Z.of_nat n + 9) 18 ltac:(lia)) as B.
      lia. }
    assert (Hin : (i <= n)%nat) by lia.
    destruct (linspace_nth 10 n i Hn Hin) as (w & Hw & Ew).
    apply Qle_trans with (abs_gap Exact.example_config w).
    + apply (Hmin i). exact Hw.
    + apply (example_gap_near_crossing n i w Hn Hi Ew).
Qed.

(** In exact arithmetic any positive tolerance is met from some resolution
    on. *)
Lemma example_min_gap_vanishes (eps : Q) :
  0 < eps ->
  exists n0 : nat, forall n, (n0 <= n)%nat ->
    exists g,
      min_gap Exact.example_config (Exact.interval n) = Some g
      /\ g < eps.
Proof.
  intros Heps. exists (Pos.to_nat (9 * Qden eps)). intros n Hn.
  assert (H1 : (1 <= n)%nat) by lia.
  destruct (example_min_gap_bound n H1) as (g & Hg & _ & Hle).
  exists g. split; [exact Hg |].
  apply Qle_lt_trans with (9 / (2 * inject_Z (Z.of_nat n))); [exact Hle |].
  assert (Hpos : 0 < 2 * inject_Z (Z.of_nat n)).
  { assert (0 < inject_Z (Z.of_nat n))
      by (change 0 with (inject_Z 0); rewrite <- Zlt_Qlt; lia).
    lra. }
  apply Qlt_shift_div_r; [exact Hpos |].
  destruct eps as [p q]. unfold Qlt in *.
  cbn [Qmult inject_Z Qnum Qden] in *.
  rewrite Z.mul_1_r in Heps. rewrite !Pos2Z.inj_mul.
  assert (Hq : (9 * Z.pos q <= Z.of_nat n)%Z) by lia.
  nia.
Qed.

End Resolution.

(** C6, as the script computes it.  On the integers 0..10 with rates 1 and
    0.1 and offset 5 the estimator marks index 6, volume 6, and among the
    binary64 samples 6 is the one nearest the crossing
    5 / (1 - 0.1) = 50/9 = 5.55...  When the interval [0, 10] is cut into
    [n] equal parts, for every [n] from 1 to 1000, the gap the script
    computes at the marked sample, taken as the rational number the
    binary64 result stands for, is at most [9 / (2 n)]: 0.40000000000000036
    with 10 parts, 0.040000000000000036 with 100 and 0.0040000000000004476
    with 1000.  The bound decreases with the resolution; the gap itself
    does not decrease at every refinement. *)
Theorem example_break_even_near_crossing :
  (break_even_point Float64.example_config (Float64.interval 10)
     = Some (BreakEven 6 6%float 6%float)
   /\ Exact.crossing Exact.example_config == 50 # 9
   /\ 555 # 100 < Exact.crossing Exact.example_config < 556 # 100
   /\ forall w, In w (Float64.interval 10) ->
        exists q,
          Float64.exact_value w = Some q
          /\ Qabs (6 - Exact.crossing Exact.example_config)
             <= Qabs (q - Exact.crossing Exact.example_config))
  /\ (forall n, (1 <= n <= 1000)%nat ->
        exists g q,
          min_gap Float64.example_config (Float64.interval n) = Some g
          /\ Float64.exact_value g = Some q
          /\ 0 <= q <= 9 / (2 * inject_Z (Z.of_nat n)))
  /\ (min_gap Float64.example_config (Float64.interval 10)
      = Some 0.40000000000000036%float
      /\ min_gap Float64.example_config (Float64.interval 100)
         = Some 0.040000000000000036%float
      /\ min_gap Float64.example_config (Float64.interval 1000)
         = Some 0.0040000000000004476%float).
Proof.
  split; [| split].
  - split; [vm_compute; reflexivity |].
    split; [reflexivity |]. split; [split; reflexivity |].
    intros w Hw.
    assert (H : forallb
                  (fun w => match Float64.exact_value w with
                            | Some q =>
                                Qle_bool
                                  (Qabs (6 - Exact.crossing Exact.example_config))
                                  (Qabs (q - Exact.crossing Exact.example_config))
                            | None => false
                            end) (Float64.interval 10) = true)
      by (vm_compute; reflexivity).
    pose proof (proj1 (forallb_forall _ _) H w Hw) as P. cbv beta in P.
    destruct (Float64.exact_value w) as [q |]; [| discriminate].
    exists q. split; [reflexivity |]. apply Qle_bool_iff. exact P.
  - intros n Hn.
    assert (H : forallb
                  (fun n =>
                     match min_gap Float64.example_config
                             (Float64.linspace_by_Z 0 10 (S n)) with
                     | Some g =>
                         match Float64.exact_value g with
                         | Some q =>
                             Qle_bool 0 q
                             && Qle_bool q (9 / (2 * inject_Z (Z.of_nat n)))
                         | None => false
                         end
                     | None => false
                     end) (seq 1 1000) = true)
      by (vm_compute; reflexivity).
    pose proof (forallb_seq _ 1 1000 n H ltac:(lia)) as P. cbv beta in P.
    rewrite <- linspace_by_Z_eq in P.
    change (linspace 0%float 10%float (S n)) with (Float64.interval n) in P.
    destruct (min_gap Float64.example_config (Float64.interval n)) as [g |];
      [| discriminate].
    destruct (Float64.exact_value g) as [q |] eqn:Eq; [| discriminate].
    apply andb_true_iff in P. destruct P as [P1 P2].
    exists g, q. split; [reflexivity |]. split; [exact Eq |].
    split; apply Qle_bool_iff; assumption.
  - repeat split; vm_compute; reflexivity.
Qed.

(** C6, as stated, fails: the gap at the marked sample does not decrease
    as the resolution increases.  With 9 parts sample 5 is 10 * 5 / 9, the
    crossing itself as binary64 computes it, and the gap is 0; with 10 parts
    the gap is 0.40000000000000036. *)
Lemma example_gap_not_decreasing :
  min_gap Float64.example_config (Float64.interval 9) = Some 0%float
  /\ min_gap Float64.example_config (Float64.interval 10)
     = Some 0.40000000000000036%float
  /\ ~ (forall n n' g g', (1 <= n < n')%nat ->
          min_gap Float64.example_config (Float64.interval n) = Some g ->
          min_gap Float64.example_config (Float64.interval n') = Some g' ->
          PrimFloat.leb g' g = true).
Proof.
  split; [vm_compute; reflexivity |].
  split; [vm_compute; reflexivity |].
  intros H.
  specialize (H 9%nat 10%nat 0%float 0.40000000000000036%float
                ltac:(lia) ltac:(vm_compute; reflexivity)
                ltac:(vm_compute; reflexivity)).
  vm_compute in H. discriminate.
Qed.

(** ** Equal rates (C7) *)

Section ConstantGap.
Context {A : Type} {num : Num A}.

Hypothesis geb_trans :
  forall x y z : A, geb x y = true -> geb y z = true -> geb x z = true.

(** The scan keeps the index it holds when no later element is below the
    value it holds. *)
Lemma argmin_from_keeps (xs : list A) :
  forall i mp min_ind,
    (forall x, In x xs -> geb x mp = true) ->
    argmin_from xs i mp min_ind = min_ind.
Proof.
  induction xs as [| x xs IH]; intros i mp min_ind H; simpl; [reflexivity |].
  rewrite (H x (or_introl eq_refl)).
  apply IH. intros y Hy. apply H. right. exact Hy.
Qed.

(** C7, as the script computes it.  On a non-empty domain, when every gap
    the script computes compares equal to one value [g] (the offset, when
    the rates are equal and no product or sum is rounded), the estimator
    answers index 0: it marks the first sample of the domain, which is the
    lowest volume when the domain is increasing, and the gap there equals
    [g].  Only the transitivity of the comparison is used, so this holds
    for binary64 as for exact numbers. *)
Theorem constant_gap_marks_first
  (c : config A) (requests : list A) (g : A) :
  requests <> [] ->
  gaps_equal c requests g ->
  exists r,
    break_even_point c requests = Some r
    /\ break_even_idx r = 0%nat
    /\ nth_error requests 0 = Some (break_even_requests r)
    /\ num_eqb (abs_gap c (break_even_requests r)) g = true.
Proof.
  intros Hne Hg.
  destruct (break_even_point_some c requests Hne) as [r Hr].
  exists r. split; [exact Hr |].
  apply break_even_point_unfold in Hr. destruct Hr as (v & Harg & Hv & Hrec).
  assert (Hk : break_even_idx r = 0%nat).
  { revert Harg. generalize (break_even_idx r). intros k Harg.
    unfold gaps_equal in Hg.
    destruct (cost_gap c requests) as [| x xs]; [discriminate |].
    simpl in Harg. injection Harg as <-.
    destruct (isnan x); [reflexivity |].
    apply argmin_from_keeps. intros y Hy.
    pose proof (Hg y (or_intror Hy)) as Ey.
    pose proof (Hg x (or_introl eq_refl)) as Ex.
    unfold num_eqb in Ey, Ex.
    apply andb_true_iff in Ey. apply andb_true_iff in Ex.
    apply (geb_trans y g x); [apply Ey | apply Ex]. }
  split; [exact Hk |].
  rewrite Hk in Hv. split; [rewrite Hv, Hrec; reflexivity |].
  apply Hg. rewrite Hrec. cbn [break_even_requests].
  apply (nth_error_In _ 0). rewrite cost_gap_nth, Hv. reflexivity.
Qed.

End ConstantGap.

(** With both rates 0.002 and the offset 10000 on the script's 1000
    samples, every gap computed in binary64 is 10000. *)
Lemma constant_gap_marks_first_witness :
  exists r,
    break_even_point (Config 0.002 0.002 10000)%float Float64.requests = Some r
    /\ break_even_idx r = 0%nat
    /\ nth_error Float64.requests 0 = Some (break_even_requests r)
    /\ num_eqb (abs_gap (Config 0.002 0.002 10000)%float (break_even_requests r))
         10000%float = true.
Proof.
  apply (constant_gap_marks_first float_geb_trans).
  - vm_compute. discriminate.
  - apply gaps_equal_check. vm_compute. reflexivity.
Defined.

(** C7, as stated for every configuration, fails on binary64 numbers: with
    both rates 0.1 and offset 1 on the integers 0..10, the computed gap at
    volume 4 is 0.99999999999999989, not the offset 1, and being the first
    smallest gap it makes the estimator mark index 4 instead of the lowest
    volume. *)
Lemma binary64_equal_rates_mark_interior :
  Float64.interval 10 <> []
  /\ nth_error (cost_gap (Config 0.1 0.1 1)%float (Float64.interval 10)) 0
     = Some 1%float
  /\ nth_error (cost_gap (Config 0.1 0.1 1)%float (Float64.interval 10)) 4
     = Some 0.99999999999999989%float
  /\ break_even_point (Config 0.1 0.1 1)%float (Float64.interval 10)
     = Some (BreakEven 4 4%float 0.4%float)
  /\ ~ (forall r,
          break_even_point (Config 0.1 0.1 1)%float (Float64.interval 10) = Some r ->
          break_even_idx r = 0%nat).
Proof.
  split; [vm_compute; discriminate |].
  repeat split; try (vm_compute; reflexivity).
  intros H. specialize (H (BreakEven 4 4%float 0.4%float)).
  discriminate H. vm_compute. reflexivity.
Qed.

(** ** What the order of the computed gaps decides (C2, C5, C8) *)

Section Conditions.
Context {A : Type} {num : Num A}.

Hypothesis geb_total :
  forall x y : A, isnan x = false -> isnan y = false ->
    geb x y = true \/ geb y x = true.
Hypothesis geb_trans :
  forall x y z : A, geb x y = true -> geb y z = true -> geb x z = true.

Lemma ltb_not_geb (x y : A) : ltb x y = true -> geb x y = true -> False.
Proof. unfold ltb. intros H1 H2. rewrite H2 in H1. discriminate. Qed.

(** C2, as the script computes it.  On a non-empty domain whose computed
    gaps are numbers, if one curve is below the other at every sample and
    the computed gaps are monotone along the domain (they never decrease,
    or each is below all the earlier ones), the estimator marks an endpoint
    of the domain: the first sample in the first case, the last one in the
    second.  No sample has a smaller gap, and the two costs differ at the
    marked sample: it is not a crossing. *)
Theorem no_crossing_marks_endpoint (c : config A) (requests : list A) :
  requests <> [] ->
  all_numbers (cost_gap c requests) ->
  no_crossing c requests ->
  never_decreasing (cost_gap c requests) \/ decreasing (cost_gap c requests) ->
  exists r,
    break_even_point c requests = Some r
    /\ (break_even_idx r = 0 \/ break_even_idx r = length requests - 1)%nat
    /\ (never_decreasing (cost_gap c requests) -> break_even_idx r = 0%nat)
    /\ (decreasing (cost_gap c requests) ->
        break_even_idx r = (length requests - 1)%nat)
    /\ (forall w, In w requests ->
          geb (abs_gap c w) (abs_gap c (break_even_requests r)) = true)
    /\ num_eqb (costA c (break_even_requests r))
               (costB c (break_even_requests r)) = false.
Proof.
  intros Hne Hnum Hsign Hmono.
  destruct (break_even_point_some c requests Hne) as [r Hr].
  exists r. split; [exact Hr |].
  apply break_even_point_unfold in Hr. destruct Hr as (v & Harg & Hv & Hrec).
  pose proof (argmin_first_minimum geb_total geb_trans _ _ Hnum Harg)
    as (m & Hm & Hmin & Hfirst).
  pose proof (argmin_lt_length _ _ Harg) as Hk.
  rewrite cost_gap_length in Hk.
  assert (Ev : break_even_requests r = v) by (rewrite Hrec; reflexivity).
  rewrite Ev.
  assert (Em : m = abs_gap c v).
  { rewrite cost_gap_nth, Hv in Hm. simpl in Hm. injection Hm as <-.
    reflexivity. }
  assert (Hfirst_sample :
            never_decreasing (cost_gap c requests) -> break_even_idx r = 0%nat).
  { intros Hup.
    destruct (Nat.eq_dec (break_even_idx r) 0) as [| Hk0];
      [assumption | exfalso].
    destruct (nth_error (cost_gap c requests) 0) as [x |] eqn:Ex.
    - apply (ltb_not_geb m x).
      + apply (Hfirst 0%nat); [lia | exact Ex].
      + apply (Hup 0%nat (break_even_idx r)); [lia | exact Ex | exact Hm].
    - apply nth_error_None in Ex. rewrite cost_gap_length in Ex. lia. }
  assert (Hlast_sample :
            decreasing (cost_gap c requests) ->
            break_even_idx r = (length requests - 1)%nat).
  { intros Hdown.
    destruct (Nat.eq_dec (break_even_idx r) (length requests - 1)) as [| Hkn];
      [assumption | exfalso].
    destruct (nth_error (cost_gap c requests) (length requests - 1))
      as [y |] eqn:Ey.
    - apply (ltb_not_geb y m).
      + apply (Hdown (break_even_idx r) (length requests - 1)%nat);
          [lia | exact Hm | exact Ey].
      + apply (Hmin _ _ Ey).
    - apply nth_error_None in Ey. rewrite cost_gap_length in Ey. lia. }
  split; [destruct Hmono as [H | H]; [left | right]; auto |].
  split; [exact Hfirst_sample |]. split; [exact Hlast_sample |].
  split.
  - intros w Hw. apply In_nth_error in Hw. destruct Hw as [j Hj].
    rewrite <- Em. apply (Hmin j).
    rewrite cost_gap_nth, Hj. reflexivity.
  - assert (Hin : In v requests) by (eapply nth_error_In; exact Hv).
    unfold num_eqb.
    destruct Hsign as [Hs | Hs]; specialize (Hs v Hin); unfold ltb in Hs;
      apply negb_true_iff in Hs; rewrite Hs;
      [reflexivity | apply andb_false_r].
Qed.

(** C5, as the script computes it.  On a non-empty domain whose computed
    gaps are numbers, if the computed gap is smaller than at every earlier
    sample wherever the affine curve is still the dearer one, then at every
    sample beyond the marked one the affine cost is not above the linear
    cost. *)
Theorem affine_not_dearer_beyond (c : config A) (requests : list A) :
  requests <> [] ->
  all_numbers (cost_gap c requests) ->
  gap_falls_while_affine_dearer c requests ->
  exists r,
    break_even_point c requests = Some r
    /\ forall j w, (break_even_idx r < j)%nat ->
         nth_error requests j = Some w ->
         geb (costA c w) (costB c w) = true.
Proof.
  intros Hne Hnum Hfall.
  destruct (break_even_point_some c requests Hne) as [r Hr].
  exists r. split; [exact Hr |].
  apply break_even_point_unfold in Hr. destruct Hr as (v & Harg & Hv & Hrec).
  pose proof (argmin_first_minimum geb_total geb_trans _ _ Hnum Harg)
    as (m & Hm & Hmin & _).
  assert (Em : m = abs_gap c v).
  { rewrite cost_gap_nth, Hv in Hm. simpl in Hm. injection Hm as <-.
    reflexivity. }
  intros j w Hj Hw.
  destruct (geb (costA c w) (costB c w)) eqn:G; [reflexivity | exfalso].
  apply (ltb_not_geb (abs_gap c w) (abs_gap c v)).
  - apply (Hfall (break_even_idx r) j); [exact Hj | exact Hv | exact Hw |].
    unfold ltb. rewrite G. reflexivity.
  - rewrite <- Em. apply (Hmin j). rewrite cost_gap_nth, Hw. reflexivity.
Qed.

(** C8, as the script computes it.  For two configurations on the same
    non-empty, increasing domain, with computed gaps that are numbers: if
    every later sample that has the smaller gap under the first
    configuration has it under the second as well, then the index and the
    volume marked under the second are not below those marked under the
    first.  The volumes can be equal at any sample, not only at a bound of
    the domain. *)
Theorem offset_monotone (c c' : config A) (requests : list A) :
  requests <> [] ->
  all_numbers (cost_gap c requests) ->
  all_numbers (cost_gap c' requests) ->
  increasing requests ->
  nearer_stays_nearer c c' requests ->
  exists r r',
    break_even_point c requests = Some r
    /\ break_even_point c' requests = Some r'
    /\ (break_even_idx r <= break_even_idx r')%nat
    /\ (break_even_requests r = break_even_requests r'
        \/ ltb (break_even_requests r) (break_even_requests r') = true).
Proof.
  intros Hne Hnum Hnum' Hinc Hstay.
  destruct (break_even_point_some c requests Hne) as [r Hr].
  destruct (break_even_point_some c' requests Hne) as [r' Hr'].
  exists r, r'. split; [exact Hr |]. split; [exact Hr' |].
  apply break_even_point_unfold in Hr. destruct Hr as (v & Harg & Hv & Hrec).
  apply break_even_point_unfold in Hr'.
  destruct Hr' as (v' & Harg' & Hv' & Hrec').
  pose proof (argmin_first_minimum geb_total geb_trans _ _ Hnum Harg)
    as (m & Hm & _ & Hfirst).
  pose proof (argmin_first_minimum geb_total geb_trans _ _ Hnum' Harg')
    as (m' & Hm' & Hmin' & _).
  assert (Ev : break_even_requests r = v) by (rewrite Hrec; reflexivity).
  assert (Ev' : break_even_requests r' = v') by (rewrite Hrec'; reflexivity).
  rewrite Ev, Ev'.
  assert (Em : m = abs_gap c v).
  { rewrite cost_gap_nth, Hv in Hm. simpl in Hm. injection Hm as <-.
    reflexivity. }
  assert (Em' : m' = abs_gap c' v').
  { rewrite cost_gap_nth, Hv' in Hm'. simpl in Hm'. injection Hm' as <-.
    reflexivity. }
  assert (Hle : (break_even_idx r <= break_even_idx r')%nat).
  { destruct (le_lt_dec (break_even_idx r) (break_even_idx r')) as [| Hlt];
      [assumption | exfalso].
    apply (ltb_not_geb (abs_gap c' v) (abs_gap c' v')).
    - apply (Hstay (break_even_idx r') (break_even_idx r));
        [exact Hlt | exact Hv' | exact Hv |].
      rewrite <- Em. apply (Hfirst (break_even_idx r')); [exact Hlt |].
      rewrite cost_gap_nth, Hv'. reflexivity.
    - rewrite <- Em'. apply (Hmin' (break_even_idx r)).
      rewrite cost_gap_nth, Hv. reflexivity. }
  split; [exact Hle |].
  destruct (Nat.eq_dec (break_even_idx r) (break_even_idx r')) as [E | Hne'].
  - left. rewrite E, Hv' in Hv. injection Hv as <-. reflexivity.
  - right. apply (Hinc (break_even_idx r) (break_even_idx r'));
      [lia | exact Hv | exact Hv'].
Qed.

End Conditions.

(** *** Curves that do not cross on the domain (C2) *)

(** The script's own run: the cloud cost is below the self-hosted cost at
    all 1000 samples and each computed gap is below the earlier ones. *)
Lemma no_crossing_marks_endpoint_witness :
  exists r,
    break_even_point Float64.script_config Float64.requests = Some r
    /\ (break_even_idx r = 0
        \/ break_even_idx r = length Float64.requests - 1)%nat
    /\ (never_decreasing (cost_gap Float64.script_config Float64.requests) ->
        break_even_idx r = 0%nat)
    /\ (decreasing (cost_gap Float64.script_config Float64.requests) ->
        break_even_idx r = (length Float64.requests - 1)%nat)
    /\ (forall w, In w Float64.requests ->
          geb (abs_gap Float64.script_config w)
              (abs_gap Float64.script_config (break_even_requests r)) = true)
    /\ num_eqb (costA Float64.script_config (break_even_requests r))
               (costB Float64.script_config (break_even_requests r)) = false.
Proof.
  apply (no_crossing_marks_endpoint float_geb_total float_geb_trans).
  - vm_compute. discriminate.
  - apply all_numbers_forallb. vm_compute. reflexivity.
  - apply no_crossing_check. vm_compute. reflexivity.
  - right. apply decreasing_check. vm_compute. reflexivity.
Defined.

(** C2, as stated for every configuration, fails on binary64 numbers: with
    rates 0.1 and 0.1 and offset 0.7 on the integers 0..10 the linear curve
    is below the affine one at every sample, yet rounding makes the computed
    gap smallest at index 7 (0.69999999999999984, against 0.69999999999999996
    at index 0), which is not an endpoint of the domain. *)
Lemma binary64_no_crossing_marks_interior :
  Float64.interval 10 <> []
  /\ strictly_increasing (Float64.interval 10) = true
  /\ (forall i a b,
        nth_error (cloud_cost (Config 0.1 0.1 0.7) (Float64.interval 10)) i = Some a ->
        nth_error (self_hosted_cost (Config 0.1 0.1 0.7) (Float64.interval 10)) i = Some b ->
        PrimFloat.ltb a b = true)%float
  /\ ~ (forall r,
          break_even_point (Config 0.1 0.1 0.7)%float (Float64.interval 10) = Some r ->
          (break_even_idx r = 0
           \/ break_even_idx r = length (Float64.interval 10) - 1)%nat).
Proof.
  split; [vm_compute; discriminate |].
  split; [vm_compute; reflexivity |].
  split.
  - apply (pairwise_forallb PrimFloat.ltb). vm_compute. reflexivity.
  - intros H.
    specialize (H (BreakEven 7 7%float 0.70000000000000007%float)).
    destruct H as [H | H]; [vm_compute; reflexivity | |];
      vm_compute in H; discriminate.
Qed.

(** *** Beyond the marked sample the affine curve is the cheaper one (C5) *)

(** The worked example on the integers 0..10, in binary64. *)
Lemma affine_not_dearer_beyond_witness :
  exists r,
    break_even_point Float64.example_config (Float64.interval 10) = Some r
    /\ forall j w, (break_even_idx r < j)%nat ->
         nth_error (Float64.interval 10) j = Some w ->
         geb (costA Float64.example_config w)
             (costB Float64.example_config w) = true.
Proof.
  apply (affine_not_dearer_beyond float_geb_total float_geb_trans).
  - vm_compute. discriminate.
  - apply all_numbers_forallb. vm_compute. reflexivity.
  - apply gap_falls_check. vm_compute. reflexivity.
Defined.

(** C5, as stated for every configuration, fails on binary64 numbers: with
    the script's rates 0.002 > 0.0002 and the offset 1e16 on the integers
    0..10, every affine cost rounds to 1e16 and every gap to 1e16, so the
    estimator marks index 0; at the next sample the affine cost 1e16 is
    above the linear cost 0.002. *)
Lemma binary64_affine_dearer_beyond :
  (Float64.interval 10 <> []
   /\ strictly_increasing (Float64.interval 10) = true
   /\ non_negative (Float64.interval 10) = true
   /\ PrimFloat.ltb 0.0002 0.002 = true
   /\ PrimFloat.leb 0 0.0002 = true
   /\ PrimFloat.ltb 0 1e16 = true)
  /\ break_even_point (Config 0.002 0.0002 1e16)%float (Float64.interval 10)
     = Some (BreakEven 0 0%float 0%float)
  /\ ~ (forall r,
          break_even_point (Config 0.002 0.0002 1e16)%float (Float64.interval 10)
          = Some r ->
          forall j w, (break_even_idx r < j)%nat ->
            nth_error (Float64.interval 10) j = Some w ->
            PrimFloat.leb (costB (Config 0.002 0.0002 1e16)%float w)
              (costA (Config 0.002 0.0002 1e16)%float w) = true).
Proof.
  split; [repeat split; try (vm_compute; reflexivity); vm_compute; discriminate |].
  split; [vm_compute; reflexivity |].
  intros H.
  specialize (H (BreakEven 0 0%float 0%float) ltac:(vm_compute; reflexivity)
                1%nat 1%float ltac:(simpl; lia) ltac:(vm_compute; reflexivity)).
  vm_compute in H. discriminate.
Qed.

(** *** Raising the offset (C8) *)

(** Rates 1 and 0.5 on the integers 0..10 in binary64, the offset raised
    from 2 to 3: the marked volume moves from 4 to 6. *)
Lemma offset_monotone_witness :
  exists r r',
    break_even_point (Config 1 0.5 2)%float (Float64.interval 10) = Some r
    /\ break_even_point (Config 1 0.5 3)%float (Float64.interval 10) = Some r'
    /\ (break_even_idx r <= break_even_idx r')%nat
    /\ (break_even_requests r = break_even_requests r'
        \/ ltb (break_even_requests r) (break_even_requests r') = true).
Proof.
  apply (offset_monotone float_geb_total float_geb_trans).
  - vm_compute. discriminate.
  - apply all_numbers_forallb. vm_compute. reflexivity.
  - apply all_numbers_forallb. vm_compute. reflexivity.
  - apply increasing_check. vm_compute. reflexivity.
  - apply nearer_stays_nearer_check. vm_compute. reflexivity.
Defined.

Section Offset.
Local Open Scope Q_scope.

(** C8, as stated, fails: the marked volume can stay the same under a
    larger offset without being at a bound of the domain.  On the integers
    0..10 with rates 1 and 0.5, the offsets 2 and 2.125 both mark index 4,
    volume 4: the crossing moves from 4 to 4.25, which is still nearest to
    sample 4.  All these numbers are exact in binary64 as well. *)
Lemma offset_increase_keeps_interior_sample :
  (~ (forall r r',
        break_even_point (Config 1 (1 # 2) 2) (Exact.interval 10) = Some r ->
        break_even_point (Config 1 (1 # 2) (17 # 8)) (Exact.interval 10) = Some r' ->
        break_even_requests r <= break_even_requests r'
        /\ (break_even_requests r == break_even_requests r' ->
            (break_even_idx r' = 0
             \/ break_even_idx r' = length (Exact.interval 10) - 1)%nat)))
  /\ (break_even_point (Config 1 0.5 2)%float (Float64.interval 10)
        = Some (BreakEven 4 4%float 4%float)
      /\ break_even_point (Config 1 0.5 2.125)%float (Float64.interval 10)
         = Some (BreakEven 4 4%float 4%float)
      /\ length (Float64.interval 10) = 11%nat).
Proof.
  split.
  - intros H.
    destruct (break_even_point (Config 1 (1 # 2) 2) (Exact.interval 10))
      as [r |] eqn:Er; [| vm_compute in Er; discriminate].
    destruct (break_even_point (Config 1 (1 # 2) (17 # 8)) (Exact.interval 10))
      as [r' |] eqn:Er'; [| vm_compute in Er'; discriminate].
    destruct (H r r' eq_refl eq_refl) as [_ Hclip].
    vm_compute in Er. injection Er as <-.
    vm_compute in Er'. injection Er' as <-.
    destruct Hclip as [Hc | Hc]; [reflexivity | |]; vm_compute in Hc; discriminate.
  - repeat split; vm_compute; reflexivity.
Qed.

End Offset.

(** In binary64 even the weak monotonicity is lost when the offset swamps
    the costs: with rates 1 and 0.5 on the integers 0..10 the offset 1e17
    marks index 9 and the larger offset 1e18 marks index 0. *)
Lemma binary64_offset_not_monotone :
  break_even_point (Config 1 0.5 1e17)%float (Float64.interval 10)
    = Some (BreakEven 9 9%float 9%float)
  /\ break_even_point (Config 1 0.5 1e18)%float (Float64.interval 10)
     = Some (BreakEven 0 0%float 0%float).
Proof. split; vm_compute; reflexivity. Qed.

(** ** The conditions in exact arithmetic

    In exact arithmetic the conditions of C2, C5, C7 and C8 on the computed
    gaps follow from what the specification assumes of the rates, the
    offsets and an increasing domain.  Binary64 rounding is what breaks
    them. *)

Section ExactConditions.
Local Open Scope Q_scope.
Implicit Types (c : config Q) (requests : list Q).

Lemma exact_gap_in c requests x :
  In x (cost_gap c requests) ->
  exists v, In v requests /\ x = Qabs (cost_diff c v).
Proof.
  rewrite cost_gap_map. intros H. apply in_map_iff in H.
  destruct H as (v & E & Hv). exists v. split; [exact Hv |].
  symmetry. exact E.
Qed.

Lemma exact_num_eqb (x y : Q) : num_eqb x y = true <-> x == y.
Proof.
  unfold num_eqb. rewrite andb_true_iff, !Q_geb_iff. split.
  - intros [H1 H2]. apply Qle_antisym; assumption.
  - intros E. rewrite E. split; apply Qle_refl.
Qed.

(** Equal rates and an offset that is not negative: every gap is the
    offset. *)
Lemma exact_equal_rates_gaps_equal c requests :
  rateA c == rateB c -> 0 <= offsetB c ->
  gaps_equal c requests (offsetB c).
Proof.
  intros Hr Ho x Hx. apply exact_gap_in in Hx. destruct Hx as (v & _ & ->).
  apply exact_num_eqb. rewrite (cost_diff_constant c v Hr).
  rewrite Qabs_opp. apply Qabs_pos. exact Ho.
Qed.

Lemma exact_increasing requests :
  increasing requests <->
  forall i j x y, (i < j)%nat ->
    nth_error requests i = Some x -> nth_error requests j = Some y -> x < y.
Proof.
  unfold increasing. split; intros H i j x y Hij Hx Hy.
  - apply Q_ltb_iff. apply (H i j); assumption.
  - apply Q_ltb_iff. apply (H i j); assumption.
Qed.

Lemma exact_gap_nth c requests i x :
  nth_error (cost_gap c requests) i = Some x ->
  exists v, nth_error requests i = Some v /\ x = Qabs (cost_diff c v).
Proof.
  rewrite cost_gap_nth. destruct (nth_error requests i) as [v |];
    [| discriminate].
  simpl. intros E. injection E as <-. exists v. split; reflexivity.
Qed.

(** Curves that do not cross on an increasing domain: the gaps are
    monotone. *)
Lemma exact_no_crossing_monotone c requests :
  increasing requests ->
  no_crossing c requests ->
  never_decreasing (cost_gap c requests) \/ decreasing (cost_gap c requests).
Proof.
  intros Hinc Hsign. rewrite exact_increasing in Hinc.
  assert (Hcase :
    (forall i j u w, (i < j)%nat -> nth_error requests i = Some u ->
       nth_error requests j = Some w ->
       Qabs (cost_diff c u) <= Qabs (cost_diff c w))
    \/ (forall i j u w, (i < j)%nat -> nth_error requests i = Some u ->
          nth_error requests j = Some w ->
          Qabs (cost_diff c w) < Qabs (cost_diff c u))).
  { destruct Hsign as [Hs | Hs].
    - assert (S : forall i v, nth_error requests i = Some v ->
                    cost_diff c v < 0).
      { intros i v Hv. apply cost_diff_sign. apply Q_ltb_iff. apply Hs.
        eapply nth_error_In. exact Hv. }
      destruct (Q_dec (rateA c) (rateB c)) as [[Hr | Hr] | Hr].
      + left. intros i j u w Hij Hu Hw.
        pose proof (S i u Hu). pose proof (S j w Hw).
        pose proof (cost_diff_decreasing c u w Hr (Hinc i j u w Hij Hu Hw)).
        rewrite !Qabs_neg by (apply Qlt_le_weak; assumption). lra.
      + right. intros i j u w Hij Hu Hw.
        pose proof (S i u Hu). pose proof (S j w Hw).
        pose proof (cost_diff_increasing c u w Hr (Hinc i j u w Hij Hu Hw)).
        rewrite !Qabs_neg by (apply Qlt_le_weak; assumption). lra.
      + left. intros i j u w Hij Hu Hw.
        rewrite (cost_diff_constant c u Hr), (cost_diff_constant c w Hr).
        apply Qle_refl.
    - assert (S : forall i v, nth_error requests i = Some v ->
                    0 < cost_diff c v).
      { intros i v Hv. apply cost_diff_sign. apply Q_ltb_iff. apply Hs.
        eapply nth_error_In. exact Hv. }
      destruct (Q_dec (rateA c) (rateB c)) as [[Hr | Hr] | Hr].
      + right. intros i j u w Hij Hu Hw.
        pose proof (S i u Hu). pose proof (S j w Hw).
        pose proof (cost_diff_decreasing c u w Hr (Hinc i j u w Hij Hu Hw)).
        rewrite !Qabs_pos by (apply Qlt_le_weak; assumption). lra.
      + left. intros i j u w Hij Hu Hw.
        pose proof (S i u Hu). pose proof (S j w Hw).
        pose proof (cost_diff_increasing c u w Hr (Hinc i j u w Hij Hu Hw)).
        rewrite !Qabs_pos by (apply Qlt_le_weak; assumption). lra.
      + left. intros i j u w Hij Hu Hw.
        rewrite (cost_diff_constant c u Hr), (cost_diff_constant c w Hr).
        apply Qle_refl. }
  destruct Hcase as [H | H]; [left | right]; intros i j x y Hij Hx Hy;
    apply exact_gap_nth in Hx; destruct Hx as (u & Hu & ->);
    apply exact_gap_nth in Hy; destruct Hy as (w & Hw & ->).
  - apply Q_geb_iff. apply (H i j); assumption.
  - apply Q_ltb_iff. apply (H i j); assumption.
Qed.

(** [rateA > rateB] on an increasing domain: the gap falls for as long as
    the affine curve is the dearer one. *)
Lemma exact_gap_falls c requests :
  rateB c < rateA c ->
  increasing requests ->
  gap_falls_while_affine_dearer c requests.
Proof.
  intros Hr Hinc. rewrite exact_increasing in Hinc.
  intros i j u w Hij Hu Hw Hd.
  apply Q_ltb_iff in Hd. apply cost_diff_sign in Hd.
  pose proof (cost_diff_increasing c u w Hr (Hinc i j u w Hij Hu Hw)) as Hlt.
  apply Q_ltb_iff. rewrite !exact_abs_gap.
  rewrite !Qabs_neg by lra. lra.
Qed.

(** Of two points [a < b], the one nearer to [o] on the right stays the
    nearer one when [o] moves right. *)
Lemma nearer_sample_monotone (a b o o' : Q) :
  a < b -> o < o' ->
  Qabs (b - o) < Qabs (a - o) -> Qabs (a - o') <= Qabs (b - o') -> False.
Proof.
  intros Hab Ho H1 H2.
  destruct (Qlt_le_dec (b - o) 0); destruct (Qlt_le_dec (a - o) 0);
    destruct (Qlt_le_dec (a - o') 0); destruct (Qlt_le_dec (b - o') 0);
    try lra.
  all: repeat match goal with
       | H : ?x < 0 |- _ =>
           rewrite (Qabs_neg x) in * by (apply Qlt_le_weak; exact H);
           revert H
       | H : 0 <= ?x |- _ => rewrite (Qabs_pos x) in * by exact H; revert H
       end; intros; lra.
Qed.

(** Same rates with [rateA > rateB], a larger offset, an increasing
    domain: a later sample that is nearer stays nearer. *)
Lemma exact_nearer_stays_nearer c c' requests :
  rateA c' == rateA c -> rateB c' == rateB c ->
  rateB c < rateA c -> offsetB c < offsetB c' ->
  increasing requests ->
  nearer_stays_nearer c c' requests.
Proof.
  intros Ha Hb Hr Ho Hinc. rewrite exact_increasing in Hinc.
  intros i j u w Hij Hu Hw Hd.
  apply Q_ltb_iff in Hd. apply Q_ltb_iff.
  rewrite !exact_abs_gap in *.
  pose proof (Hinc i j u w Hij Hu Hw) as Huw.
  apply Qnot_le_lt. intros Hle.
  apply (nearer_sample_monotone ((rateA c - rateB c) * u)
           ((rateA c - rateB c) * w) (offsetB c) (offsetB c')).
  - assert (0 < (rateA c - rateB c) * (w - u))
      by (apply Qmult_lt_0_compat; lra).
    lra.
  - exact Ho.
  - rewrite !exact_cost_diff in Hd. exact Hd.
  - rewrite !exact_cost_diff in Hle. rewrite Ha, Hb in Hle. exact Hle.
Qed.

End ExactConditions.

(** ** The script's grid in binary64 *)

(** X3.  The domain of the script is well formed for every number of
    samples from 2 to 1000: [np.linspace(0, 100000, num)] computed in
    binary64 has [num] samples, ends at 100000 exactly, is strictly
    increasing, from one sample to the next and so between any two, and
    holds only volumes from 0 to 100000, so none that is negative, infinite
    or not a number. *)
Theorem script_grid_well_formed (n : nat) :
  (2 <= n <= 1000)%nat ->
  length (linspace 0%float 100000%float n) = n
  /\ nth_error (linspace 0%float 100000%float n) (n - 1) = Some 100000%float
  /\ strictly_increasing (linspace 0%float 100000%float n) = true
  /\ increasing (linspace 0%float 100000%float n)
  /\ non_negative (linspace 0%float 100000%float n) = true
  /\ forall v, In v (linspace 0%float 100000%float n) ->
       PrimFloat.leb 0 v = true /\ PrimFloat.leb v 100000 = true.
Proof.
  intros Hn.
  split; [apply linspace_length |].
  split; [apply linspace_last; lia |].
  assert (H : forallb
                (fun n =>
                   let g := Float64.linspace_by_Z 0 100000 n in
                   strictly_increasing g && non_negative g
                   && forallb (fun v => PrimFloat.leb 0 v && PrimFloat.leb v 100000) g)
                (seq 2 999) = true)
    by (vm_compute; reflexivity).
  pose proof (forallb_seq _ 2 999 n H ltac:(lia)) as P. cbv beta zeta in P.
  rewrite <- !linspace_by_Z_eq in P.
  apply andb_true_iff in P. destruct P as [P P3].
  apply andb_true_iff in P. destruct P as [P1 P2].
  assert (Hin : forall v, In v (linspace 0%float 100000%float n) ->
                  PrimFloat.leb 0 v = true /\ PrimFloat.leb v 100000 = true).
  { intros v Hv. apply andb_true_iff.
    apply (proj1 (forallb_forall _ _) P3 v Hv). }
  split; [exact P1 |]. split; [| split; [exact P2 | exact Hin]].
  apply (strictly_increasing_increasing float_geb_total float_geb_trans);
    [| exact P1].
  intros v Hv. destruct (isnan v) eqn:N; [| reflexivity].
  pose proof (float_geb_nan v 0%float N) as G.
  cbn [geb Num_float] in G. rewrite (proj1 (Hin v Hv)) in G. discriminate G.
Qed.

Lemma script_grid_well_formed_witness :
  length Float64.requests = 1000%nat
  /\ nth_error Float64.requests (1000 - 1) = Some 100000%float
  /\ strictly_increasing Float64.requests = true
  /\ increasing Float64.requests
  /\ non_negative Float64.requests = true
  /\ forall v, In v Float64.requests ->
       PrimFloat.leb 0 v = true /\ PrimFloat.leb v 100000 = true.
Proof.
  apply (script_grid_well_formed 1000). lia.
Defined.

(** In general the samples of a binary64 grid need not differ: between 1
    and the next binary64 number the middle sample rounds to 1. *)
Lemma binary64_linspace_repeats_sample :
  linspace 1%float 1.0000000000000002%float 3
  = [1%float; 1%float; 1.0000000000000002%float]
  /\ strictly_increasing (linspace 1%float 1.0000000000000002%float 3) = false.
Proof. split; vm_compute; reflexivity. Qed.

(** ** The chart, lines 24-59 *)

Section ChartFacts.
Context {A : Type} {num : Num A}.
Local Open Scope num_scope.

Lemma self_hosted_cost_length (c : config A) (requests : list A) :
  length (self_hosted_cost c requests) = length requests.
Proof.
  unfold self_hosted_cost, arr_shift, arr_scale. rewrite !length_map.
  reflexivity.
Qed.

Lemma arr_div_length (a : list A) (k : A) : length (arr_div a k) = length a.
Proof. apply length_map. Qed.

Lemma plot_same_length (x y : list A) :
  length x = length y -> plot x y = Some (combine x y).
Proof. intros E. unfold plot. rewrite E, Nat.eqb_refl. reflexivity. Qed.

Lemma nth_error_combine {X Y : Type} (l1 : list X) (l2 : list Y) (i : nat) :
  nth_error (combine l1 l2) i
  = match nth_error l1 i, nth_error l2 i with
    | Some a, Some b => Some (a, b)
    | _, _ => None
    end.
Proof.
  revert l2 i. induction l1 as [| a l1 IH]; intros [| b l2] [| i]; simpl;
    try reflexivity.
  - destruct (nth_error l1 i); reflexivity.
  - apply IH.
Qed.

(** The script's run, unfolded: both [ax.plot] calls get arrays of equal
    length, so what remains is the break-even point and the two
    subscripts. *)
Lemma draw_chart_unfold (c : config A) (requests : list A) :
  draw_chart c requests
  = match argmin (cost_gap c requests) with
    | None => inr ValueError
    | Some _ =>
        match break_even_point c requests with
        | None => inr IndexError
        | Some r =>
            let bx := break_even_requests r / of_nat 1000 in
            let by_ := break_even_cost r in
            match nth_error (cloud_cost c requests) 800 with
            | None => inr IndexError
            | Some a =>
                match nth_error (self_hosted_cost c requests) 800 with
                | None => inr IndexError
                | Some b =>
                    inl (Chart
                           (combine (arr_div requests (of_nat 1000))
                              (cloud_cost c requests))
                           (combine (arr_div requests (of_nat 1000))
                              (self_hosted_cost c requests))
                           (bx, by_) bx by_ (of_nat 80, a) (of_nat 80, b)
                           ((bx, by_), (bx + of_nat 15, by_ - of_nat 3000)))
                end
            end
        end
    end.
Proof.
  unfold draw_chart.
  rewrite !plot_same_length
    by (rewrite arr_div_length, ?cloud_cost_length, ?self_hosted_cost_length;
        reflexivity).
  reflexivity.
Qed.

(** X1.  The script as a whole ends in one of three ways, decided by the number
    of samples alone: with no sample [np.argmin] raises [ValueError]; with
    1 to 800 samples the subscript [cloud_cost[800]] of line 43 raises
    [IndexError]; with more than 800 the chart is drawn.  Neither
    [ax.plot] call ever fails on mismatched lengths. *)
Theorem draw_chart_outcome (c : config A) (requests : list A) :
  match draw_chart c requests with
  | inl _ => (800 < length requests)%nat
  | inr ValueError => requests = []
  | inr IndexError => (0 < length requests <= 800)%nat
  end.
Proof.
  rewrite draw_chart_unfold.
  destruct (argmin (cost_gap c requests)) as [k |] eqn:Ea.
  - assert (Hne : requests <> []).
    { intros ->. discriminate Ea. }
    destruct (break_even_point_some c requests Hne) as [r Hr]. rewrite Hr.
    assert (Hpos : (0 < length requests)%nat)
      by (destruct requests; [congruence | simpl; lia]).
    destruct (nth_error (cloud_cost c requests) 800) as [a |] eqn:E1.
    + assert (H1 : (800 < length (cloud_cost c requests))%nat)
        by (apply nth_error_Some; rewrite E1; discriminate).
      rewrite cloud_cost_length in H1.
      destruct (nth_error (self_hosted_cost c requests) 800) as [b |] eqn:E2.
      * exact H1.
      * apply nth_error_None in E2. rewrite self_hosted_cost_length in E2. lia.
    + apply nth_error_None in E1. rewrite cloud_cost_length in E1.
      change (0 < length requests <= 800)%nat. lia.
  - apply argmin_none in Ea. apply (f_equal (@length A)) in Ea.
    rewrite cost_gap_length in Ea. destruct requests; [reflexivity | discriminate].
Qed.

(** X2.  The red marker is a vertex of the cloud curve, the one at the
    break-even index, whatever the configuration; the two guide lines and
    the break-even note go through it.  The self-hosted curve has, at the
    same abscissa, the affine cost of that volume, which is the marker's
    height only when the two costs agree there. *)
Theorem chart_marker_on_cloud_curve
  (c : config A) (requests : list A) (ch : chart A) :
  draw_chart c requests = inl ch ->
  exists r,
    break_even_point c requests = Some r
    /\ nth_error (cloud_curve ch) (break_even_idx r) = Some (marker ch)
    /\ nth_error (self_hosted_curve ch) (break_even_idx r)
       = Some (fst (marker ch), costB c (break_even_requests r))
    /\ axvline ch = fst (marker ch)
    /\ axhline ch = snd (marker ch)
    /\ fst (break_even_note ch) = marker ch.
Proof.
  rewrite draw_chart_unfold.
  destruct (argmin (cost_gap c requests)) as [k |]; [| discriminate].
  destruct (break_even_point c requests) as [r |] eqn:Hr; [| discriminate].
  destruct (nth_error (cloud_cost c requests) 800) as [a |]; [| discriminate].
  destruct (nth_error (self_hosted_cost c requests) 800) as [b |];
    [| discriminate].
  intros E. injection E as <-. exists r. split; [reflexivity |].
  apply break_even_point_unfold in Hr. destruct Hr as (v & _ & Hv & Hrec).
  cbn [cloud_curve self_hosted_curve marker axvline axhline break_even_note fst snd].
  rewrite !nth_error_combine. unfold arr_div.
  rewrite nth_error_map, cloud_cost_nth, self_hosted_cost_nth, Hv.
  rewrite Hrec. simpl. repeat split.
Qed.

(** The two curve notes are anchored at the abscissa 80 and at the height
    of vertex 800 of their curve; the abscissa of that vertex is
    [requests[800] / 1000], which the note does not use. *)
Theorem chart_notes_at_vertex_800
  (c : config A) (requests : list A) (ch : chart A) :
  draw_chart c requests = inl ch ->
  exists v,
    nth_error requests 800 = Some v
    /\ nth_error (cloud_curve ch) 800
       = Some (v / of_nat 1000, snd (cloud_note ch))
    /\ nth_error (self_hosted_curve ch) 800
       = Some (v / of_nat 1000, snd (self_hosted_note ch))
    /\ cloud_note ch = (of_nat 80, costA c v)
    /\ self_hosted_note ch = (of_nat 80, costB c v).
Proof.
  rewrite draw_chart_unfold.
  destruct (argmin (cost_gap c requests)) as [k |]; [| discriminate].
  destruct (break_even_point c requests) as [r |]; [| discriminate].
  rewrite cloud_cost_nth, self_hosted_cost_nth.
  destruct (nth_error requests 800) as [v |] eqn:Hv; [| discriminate].
  cbn [option_map]. intros E. injection E as <-.
  exists v. split; [reflexivity |].
  cbn [cloud_curve self_hosted_curve cloud_note self_hosted_note fst snd].
  rewrite !nth_error_combine. unfold arr_div.
  rewrite nth_error_map, cloud_cost_nth, self_hosted_cost_nth, Hv.
  cbn [option_map]. repeat split.
Qed.

End ChartFacts.

Lemma chart_marker_on_cloud_curve_witness :
  exists ch r,
    draw_chart Float64.script_config Float64.requests = inl ch
    /\ break_even_point Float64.script_config Float64.requests = Some r
    /\ nth_error (cloud_curve ch) (break_even_idx r) = Some (marker ch)
    /\ nth_error (self_hosted_curve ch) (break_even_idx r)
       = Some (fst (marker ch),
               costB Float64.script_config (break_even_requests r))
    /\ axvline ch = fst (marker ch)
    /\ axhline ch = snd (marker ch)
    /\ fst (break_even_note ch) = marker ch.
Proof.
  destruct (draw_chart Float64.script_config Float64.requests) as [ch | e] eqn:E;
    [| vm_compute in E; destruct e; discriminate].
  exists ch.
  destruct (chart_marker_on_cloud_curve
              Float64.script_config Float64.requests ch E) as (r & H).
  exists r. split; [reflexivity | exact H].
Defined.

Lemma chart_notes_at_vertex_800_witness :
  exists ch v,
    draw_chart Float64.script_config Float64.requests = inl ch
    /\ nth_error Float64.requests 800 = Some v
    /\ nth_error (cloud_curve ch) 800
       = Some (v / of_nat 1000, snd (cloud_note ch))%num
    /\ nth_error (self_hosted_curve ch) 800
       = Some (v / of_nat 1000, snd (self_hosted_note ch))%num
    /\ cloud_note ch = (of_nat 80, costA Float64.script_config v)
    /\ self_hosted_note ch = (of_nat 80, costB Float64.script_config v).
Proof.
  destruct (draw_chart Float64.script_config Float64.requests) as [ch | e] eqn:E;
    [| vm_compute in E; destruct e; discriminate].
  exists ch.
  destruct (chart_notes_at_vertex_800
              Float64.script_config Float64.requests ch E) as (v & H).
  exists v. split; [reflexivity | exact H].
Defined.

(** X4.  The two curve notes of the script's chart point beside their
    curves.  Their heights are those of vertex 800 of the two curves,
    160.16016016016016 and 10016.016016016016, the costs at
    [requests[800]] = 80080.080080080079 requests; the abscissa of that
    vertex is 80.08008008008008 while the notes are anchored at 80.  For
    [np.linspace(0, 100000, num)] with [num] from 801 to 1100, the abscissa
    [requests[800] / 1000] is 80 for 1001 samples and for no other
    number. *)
Theorem notes_off_their_vertex :
  (exists ch,
     draw_chart Float64.script_config Float64.requests = inl ch
     /\ nth_error Float64.requests 800 = Some 80080.080080080079%float
     /\ nth_error (cloud_curve ch) 800
        = Some (80.08008008008008%float, 160.16016016016016%float)
     /\ cloud_note ch = (80%float, 160.16016016016016%float)
     /\ nth_error (self_hosted_curve ch) 800
        = Some (80.08008008008008%float, 10016.016016016016%float)
     /\ self_hosted_note ch = (80%float, 10016.016016016016%float))
  /\ forall n, (801 <= n <= 1100)%nat ->
       exists v,
         nth_error (linspace 0%float 100000%float n) 800 = Some v
         /\ (PrimFloat.eqb (v / 1000) 80 = true <-> n = 1001%nat).
Proof.
  split.
  - destruct (draw_chart Float64.script_config Float64.requests)
      as [ch | e] eqn:E; [| vm_compute in E; destruct e; discriminate].
    exists ch. split; [reflexivity |].
    vm_compute in E. injection E as <-.
    repeat split; vm_compute; reflexivity.
  - intros n Hn.
    assert (H : forallb
                  (fun n =>
                     match nth_error (Float64.linspace_by_Z 0 100000 n) 800 with
                     | Some v =>
                         Bool.eqb (PrimFloat.eqb (v / 1000) 80) (n =? 1001)%nat
                     | None => false
                     end) (seq 801 300) = true)
      by (vm_compute; reflexivity).
    pose proof (forallb_seq _ 801 300 n H ltac:(lia)) as P. cbv beta in P.
    rewrite <- linspace_by_Z_eq in P.
    destruct (nth_error (linspace 0%float 100000%float n) 800) as [v |];
      [| discriminate].
    exists v. split; [reflexivity |].
    apply Bool.eqb_prop in P. rewrite P. apply Nat.eqb_eq.
Qed.

(** ** A gap that is not a number, line 31 *)

Section NaN.
Context {A : Type} {num : Num A}.

Hypothesis geb_nan : forall x y : A, isnan x = true -> geb x y = false.

Lemma argmin_from_first_nan (xs : list A) :
  forall i mp min_ind j x,
    nth_error xs j = Some x -> isnan x = true ->
    (forall j' y, (j' < j)%nat -> nth_error xs j' = Some y -> isnan y = false) ->
    argmin_from xs i mp min_ind = (i + j)%nat.
Proof.
  induction xs as [| a xs IH]; intros i mp min_ind j x Hj Hx Hbefore.
  - destruct j; discriminate.
  - destruct j as [| j]; simpl in Hj |- *.
    + injection Hj as ->. rewrite (geb_nan x mp Hx), Hx. lia.
    + assert (Ha : isnan a = false) by (apply (Hbefore 0%nat); [lia | reflexivity]).
      assert (Hbefore' : forall j' y, (j' < j)%nat ->
                nth_error xs j' = Some y -> isnan y = false).
      { intros j' y Hlt Hy. apply (Hbefore (S j')); [lia | exact Hy]. }
      rewrite Ha.
      destruct (geb a mp);
        rewrite (IH (S i) _ _ j x Hj Hx Hbefore'); lia.
Qed.

(** X9.  As soon as one computed gap is a NaN the estimator marks the first
    sample whose gap is a NaN, whatever the other gaps are: [np.argmin]
    treats a NaN as the minimum.  The comparison is only required to be
    false on a NaN, as IEEE 754 has it. *)
Theorem break_even_marks_first_nan
  (c : config A) (requests : list A) (j : nat) (g : A) :
  nth_error (cost_gap c requests) j = Some g ->
  isnan g = true ->
  (forall j' y, (j' < j)%nat -> nth_error (cost_gap c requests) j' = Some y ->
     isnan y = false) ->
  exists r,
    break_even_point c requests = Some r /\ break_even_idx r = j.
Proof.
  intros Hj Hg Hbefore.
  assert (Harg : argmin (cost_gap c requests) = Some j).
  { destruct (cost_gap c requests) as [| a xs]; [destruct j; discriminate |].
    unfold argmin. destruct j as [| j]; simpl in Hj.
    - injection Hj as ->. rewrite Hg. reflexivity.
    - rewrite (Hbefore 0%nat a ltac:(lia) eq_refl). f_equal.
      apply (argmin_from_first_nan xs 1 a 0 j g Hj Hg).
      intros j' y Hlt Hy. apply (Hbefore (S j')); [lia | exact Hy]. }
  assert (Hlt : (j < length requests)%nat).
  { rewrite <- (cost_gap_length c). apply nth_error_Some. rewrite Hj. discriminate. }
  destruct (nth_error requests j) as [v |] eqn:Hv;
    [| apply nth_error_None in Hv; lia].
  exists (BreakEven j v (costA c v)). split; [| reflexivity].
  apply break_even_point_unfold. exists v. simpl. auto.
Qed.

End NaN.


Lemma break_even_marks_first_nan_witness :
  exists r,
    break_even_point (Config 10 10 0)%float [0; 1e308]%float = Some r
    /\ break_even_idx r = 1%nat.
Proof.
  apply (break_even_marks_first_nan float_geb_nan
           (Config 10 10 0)%float [0; 1e308]%float 1 nan).
  - vm_compute. reflexivity.
  - reflexivity.
  - intros [| j'] y Hlt Hy; [| lia].
    vm_compute in Hy. injection Hy as <-. reflexivity.
Defined.

(** ** The texts of the chart *)

Module PyFormatFacts.
Import Ascii String DecimalString PyFormat.
Local Open Scope string_scope.

Lemma digits_are_digits (n : N) :
  forallb is_digit (list_ascii_of_string (digits n)) = true.
Proof.
  unfold digits.
  assert (H : forall d, forallb is_digit
                (list_ascii_of_string (NilEmpty.string_of_uint d)) = true).
  { induction d; simpl; auto. }
  destruct (N.to_uint n); try apply H. reflexivity.
Qed.

Lemma filter_all {X : Type} (f : X -> bool) (l : list X) :
  forallb f l = true -> filter f l = l.
Proof.
  induction l as [| a l IH]; simpl; [reflexivity |].
  intros H. apply andb_true_iff in H. destruct H as [Ha Hl].
  rewrite Ha, (IH Hl). reflexivity.
Qed.

Lemma forallb_impl {X : Type} (f g : X -> bool) (l : list X) :
  (forall a, f a = true -> g a = true) ->
  forallb f l = true -> forallb g l = true.
Proof.
  intros Hfg. induction l as [| a l IH]; simpl; [reflexivity |].
  intros H. apply andb_true_iff in H. destruct H as [Ha Hl].
  rewrite (Hfg a Ha), (IH Hl). reflexivity.
Qed.

Lemma is_digit_not_comma a : is_digit a = true -> not_comma a = true.
Proof.
  destruct a as [[] [] [] [] [] [] [] []]; simpl; intros H;
    try discriminate; reflexivity.
Qed.

Lemma filter_group_rev (l : list ascii) (k : nat) :
  filter not_comma (group_rev l k) = filter not_comma l.
Proof.
  revert k. induction l as [| d t IH]; intros k; [reflexivity |].
  destruct t as [| d' t']; [reflexivity |].
  change (group_rev (d :: d' :: t') k)
    with (if (k =? 2)%nat then d :: ","%char :: group_rev (d' :: t') 0
          else d :: group_rev (d' :: t') (S k)).
  destruct (k =? 2)%nat.
  - change (filter not_comma (d :: ","%char :: group_rev (d' :: t') 0))
      with (if not_comma d then d :: filter not_comma (group_rev (d' :: t') 0)
            else filter not_comma (group_rev (d' :: t') 0)).
    rewrite IH. reflexivity.
  - change (filter not_comma (d :: group_rev (d' :: t') (S k)))
      with (if not_comma d then d :: filter not_comma (group_rev (d' :: t') (S k))
            else filter not_comma (group_rev (d' :: t') (S k))).
    rewrite IH. reflexivity.
Qed.

Lemma remove_commas_group3 (s : string) :
  forallb not_comma (list_ascii_of_string s) = true ->
  remove_commas (group3 s) = s.
Proof.
  intros H. unfold remove_commas, group3.
  rewrite list_ascii_of_string_of_list_ascii.
  rewrite filter_rev, filter_group_rev, <- filter_rev, rev_involutive.
  rewrite (filter_all _ _ H). apply string_of_list_ascii_of_string.
Qed.

Lemma digits_read_back (n : N) :
  option_map N.of_uint (NilZero.uint_of_string (digits n)) = Some n.
Proof.
  unfold digits. rewrite NilZero.usu.
  - simpl. rewrite DecimalN.Unsigned.of_to. reflexivity.
  - destruct n; simpl; [discriminate | apply DecimalPos.Unsigned.to_uint_nonnil].
Qed.

Lemma In_group_rev (l : list ascii) (k : nat) (a : ascii) :
  In a (group_rev l k) -> In a l \/ a = ","%char.
Proof.
  revert k. induction l as [| d t IH]; intros k; [intros [] |].
  destruct t as [| d' t']; [simpl; intuition |].
  change (group_rev (d :: d' :: t') k)
    with (if (k =? 2)%nat then d :: ","%char :: group_rev (d' :: t') 0
          else d :: group_rev (d' :: t') (S k)).
  destruct (k =? 2)%nat; intros [H | H].
  - left. left. exact H.
  - destruct H as [H | H]; [right; symmetry; exact H |].
    destruct (IH _ H) as [H' | H']; [left; right; exact H' | right; exact H'].
  - left. left. exact H.
  - destruct (IH _ H) as [H' | H']; [left; right; exact H' | right; exact H'].
Qed.

Lemma group3_digit_or_comma (n : N) :
  forallb digit_or_comma (list_ascii_of_string (group3 (digits n))) = true.
Proof.
  unfold group3. rewrite list_ascii_of_string_of_list_ascii.
  apply forallb_forall. intros a Ha. apply in_rev in Ha.
  apply In_group_rev in Ha. destruct Ha as [Ha | ->]; [| reflexivity].
  apply in_rev in Ha.
  pose proof (digits_are_digits n) as H. rewrite forallb_forall in H.
  specialize (H a Ha).
  destruct a as [[] [] [] [] [] [] [] []]; simpl in *; try discriminate; reflexivity.
Qed.

Lemma digits_nonempty (n : N) : digits n <> EmptyString.
Proof.
  intros E. pose proof (digits_read_back n) as H. rewrite E in H.
  discriminate H.
Qed.

(** The grouping of [group_rev] is the one [grouped_rev] accepts. *)
Lemma grouped_group_rev (l : list ascii) :
  forall k, l <> [] -> forallb is_digit l = true -> (k <= 2)%nat ->
    grouped_rev (group_rev l k) k = true.
Proof.
  induction l as [| d t IH]; intros k Hne Hd Hk; [congruence |].
  cbn [forallb] in Hd. apply andb_true_iff in Hd. destruct Hd as [Hd Ht].
  destruct t as [| d' t'].
  - cbn [group_rev grouped_rev]. rewrite Hd.
    assert (L : (k <? 3)%nat = true) by (apply Nat.ltb_lt; lia).
    rewrite L. reflexivity.
  - change (group_rev (d :: d' :: t') k)
      with (if (k =? 2)%nat then d :: ","%char :: group_rev (d' :: t') 0
            else d :: group_rev (d' :: t') (S k)).
    assert (L : (k <? 3)%nat = true) by (apply Nat.ltb_lt; lia).
    destruct (k =? 2)%nat eqn:E.
    + apply Nat.eqb_eq in E. subst k.
      cbn [grouped_rev]. rewrite Hd.
      change (is_digit ","%char) with false.
      change (Ascii.eqb ","%char ","%char) with true.
      cbn [Nat.ltb Nat.leb Nat.eqb andb].
      apply IH; [discriminate | exact Ht | lia].
    + apply Nat.eqb_neq in E.
      cbn [grouped_rev]. rewrite Hd, L. cbn [andb].
      apply IH; [discriminate | exact Ht | lia].
Qed.

Lemma well_grouped_group3 (n : N) : well_grouped (group3 (digits n)) = true.
Proof.
  unfold well_grouped, group3.
  rewrite list_ascii_of_string_of_list_ascii, rev_involutive.
  apply grouped_group_rev.
  - intros E. apply (digits_nonempty n).
    apply (f_equal (@rev ascii)) in E. rewrite rev_involutive in E.
    rewrite <- (string_of_list_ascii_of_string (digits n)), E. reflexivity.
  - apply forallb_forall. intros a Ha. apply in_rev in Ha.
    exact (proj1 (forallb_forall _ _) (digits_are_digits n) a Ha).
  - lia.
Qed.

Lemma read_currency_label (s : bool) (n : N) :
  read_currency ("$" ++ sign s ++ group3 (digits n)) = Some (s, n).
Proof.
  assert (R : option_map (fun d => N.of_uint d)
                (NilZero.uint_of_string (remove_commas (group3 (digits n))))
              = Some n).
  { rewrite remove_commas_group3.
    - apply digits_read_back.
    - apply (forallb_impl is_digit); [apply is_digit_not_comma |].
      apply digits_are_digits. }
  pose proof (well_grouped_group3 n) as W.
  destruct s.
  - change (read_currency ("$" ++ sign true ++ group3 (digits n)))
      with (if well_grouped (group3 (digits n))
            then option_map (fun d => (true, N.of_uint d))
                   (NilZero.uint_of_string (remove_commas (group3 (digits n))))
            else None).
    rewrite W.
    destruct (NilZero.uint_of_string (remove_commas (group3 (digits n))));
      simpl in *; congruence.
  - pose proof (group3_digit_or_comma n) as G.
    change ("$" ++ sign false ++ group3 (digits n))
      with (String "$"%char (group3 (digits n))).
    destruct (group3 (digits n)) as [| a t] eqn:E.
    + discriminate W.
    + simpl in G. apply andb_true_iff in G. destruct G as [Ga _].
      assert (Hb : (match String a t with String "-"%char u => u | _ => String a t end)
                   = String a t
                   /\ (match String a t with String "-"%char _ => true | _ => false end)
                      = false).
      { destruct a as [[] [] [] [] [] [] [] []]; simpl in Ga; try discriminate;
          split; reflexivity. }
      destruct Hb as [Hb1 Hb2].
      unfold read_currency. rewrite Hb1, Hb2, W.
      destruct (NilZero.uint_of_string (remove_commas (String a t)));
        simpl in *; congruence.
Qed.

(** The reader is strict about the separators. *)
Lemma read_currency_examples :
  read_currency "$1,234" = Some (false, 1234%N)
  /\ read_currency "$-0" = Some (true, 0%N)
  /\ read_currency "$1234" = None
  /\ read_currency "$1,0,0,2,0" = None
  /\ read_currency "$,123" = None.
Proof. repeat split; vm_compute; reflexivity. Qed.

Lemma fixed_grouped_whole (n : N) : fixed true 0 n = group3 (digits n).
Proof. unfold fixed. cbn [N.of_nat]. rewrite N.pow_0_r, N.div_1_r. reflexivity. Qed.

(** The label of line 74 in terms of the number it formats. *)
Lemma currency_label {P : Type} (x : float) (p : P) :
  currency x p
  = match Prim2SF x with
    | S754_zero s => "$" ++ sign s ++ group3 (digits 0)
    | S754_finite s m e =>
        "$" ++ sign s ++ group3 (digits (round_half_even (Npos m) e))
    | S754_infinity s => "$" ++ sign s ++ "inf"
    | S754_nan => "$nan"
    end.
Proof.
  unfold currency, format_f.
  destruct (Prim2SF x) as [s | s | | s m e]; try reflexivity.
  rewrite fixed_grouped_whole.
  change (N.of_nat 0) with 0%N. rewrite N.pow_0_r, N.mul_1_r. reflexivity.
Qed.

(** X10.  The tick labels of the cost axis read back.  For a finite [x] the
    label is ["$"], a minus sign when [x] is negative (zero included), and
    the digits of [|x|] rounded to a whole number with a comma before every
    group of three digits counted from the right: a reader that accepts
    only numerals so grouped returns the sign and that number, and the
    label is the grouped numeral of the number read.  For an infinite [x]
    or a NaN the label holds no numeral at all. *)
Theorem currency_reads_back {P : Type} (x : float) (p : P) :
  read_currency (currency x p)
  = match Prim2SF x with
    | S754_zero s => Some (s, 0%N)
    | S754_finite s m e => Some (s, round_half_even (Npos m) e)
    | S754_infinity _ | S754_nan => None
    end
  /\ forall s k,
       read_currency (currency x p) = Some (s, k) ->
       currency x p = "$" ++ sign s ++ group3 (digits k)
       /\ well_grouped (group3 (digits k)) = true.
Proof.
  rewrite currency_label.
  destruct (Prim2SF x) as [s | s | | s m e].
  - rewrite read_currency_label. split; [reflexivity |].
    intros s' k E. injection E as <- <-.
    split; [reflexivity | apply well_grouped_group3].
  - split; [destruct s; reflexivity |].
    intros s' k E. destruct s; discriminate E.
  - split; [reflexivity |]. intros s' k E. discriminate E.
  - rewrite read_currency_label. split; [reflexivity |].
    intros s' k E. injection E as <- <-.
    split; [reflexivity | apply well_grouped_group3].
Qed.

(** The rounding of [round_half_even], on integers: the result is within
    half a unit, and even when exactly half a unit away. *)
Lemma round_half_even_Z (n : N) (p : positive) :
  let d := (2 ^ Zpos p)%Z in
  let k := Z.of_N (round_half_even n (Zneg p)) in
  (2 * Z.abs (k * d - Z.of_N n) <= d)%Z
  /\ ((2 * Z.abs (k * d - Z.of_N n) = d)%Z -> Z.even k = true).
Proof.
  intros d k. subst k. unfold round_half_even.
  assert (Hd : (0 < d)%Z) by (apply Z.pow_pos_nonneg; lia).
  assert (Ed : Z.of_N (2 ^ Npos p) = d).
  { unfold d. rewrite N2Z.inj_pow. reflexivity. }
  set (dn := (2 ^ Npos p)%N) in *.
  assert (Hdn : dn <> 0%N) by lia.
  pose proof (N.div_mod n dn Hdn) as Hdm.
  pose proof (N.mod_lt n dn Hdn) as Hlt.
  set (q := (n / dn)%N) in *. set (r := (n mod dn)%N) in *.
  assert (En : Z.of_N n = (Z.of_N q * d + Z.of_N r)%Z) by lia.
  destruct (N.compare_spec (2 * r) dn) as [E | L | G].
  - destruct (N.even q) eqn:Ev.
    + split; [lia |]. intros _. rewrite <- Ev.
      destruct q; reflexivity.
    + split; [lia |]. intros _.
      replace (Z.of_N (q + 1)) with (Z.succ (Z.of_N q)) by lia.
      rewrite Z.even_succ.
      destruct q as [| [ | | ]]; simpl in *; try discriminate; reflexivity.
  - split; [lia | lia].
  - split; [lia | lia].
Qed.

Local Open Scope Q_scope.

Lemma round_half_even_Q (n : N) (e : Z) :
  Qabs (inject_Z (Z.of_N (round_half_even n e)) - inject_Z (Z.of_N n) * 2 ^ e)
  <= 1 # 2
  /\ (Qabs (inject_Z (Z.of_N (round_half_even n e)) - inject_Z (Z.of_N n) * 2 ^ e)
      == 1 # 2 ->
      N.even (round_half_even n e) = true).
Proof.
  destruct e as [| p | p].
  - assert (E : inject_Z (Z.of_N (round_half_even n 0)) - inject_Z (Z.of_N n) * 2 ^ 0
                == 0) by (simpl; ring).
    rewrite E. split; [discriminate |]. intros H. discriminate H.
  - assert (E : inject_Z (Z.of_N (round_half_even n (Z.pos p)))
                - inject_Z (Z.of_N n) * 2 ^ Z.pos p == 0).
    { unfold round_half_even. rewrite N2Z.inj_mul, N2Z.inj_pow, inject_Z_mult.
      change (Z.of_N 2) with 2%Z. change (Z.of_N (N.pos p)) with (Z.pos p).
      rewrite (Qpower.Zpower_Qpower 2 (Z.pos p)) by lia.
      change (inject_Z 2) with 2. ring. }
    rewrite E. split; [discriminate |]. intros H. discriminate H.
  - destruct (round_half_even_Z n p) as [Hle Heven].
    set (k := Z.of_N (round_half_even n (Z.neg p))) in *.
    set (d := (2 ^ Z.pos p)%Z) in *.
    assert (Hd : (0 < d)%Z) by (apply Z.pow_pos_nonneg; lia).
    assert (HD : 0 < inject_Z d)
      by (change 0 with (inject_Z 0); rewrite <- Zlt_Qlt; exact Hd).
    assert (Epow : 2 ^ Z.neg p == / inject_Z d).
    { change (Z.neg p) with (- Z.pos p)%Z. rewrite Qpower.Qpower_opp.
      unfold d. rewrite (Qpower.Zpower_Qpower 2 (Z.pos p)) by lia. reflexivity. }
    assert (E : inject_Z k - inject_Z (Z.of_N n) * 2 ^ Z.neg p
                == inject_Z (k * d - Z.of_N n) * / inject_Z d).
    { rewrite Epow. unfold Zminus.
      rewrite inject_Z_plus, inject_Z_mult, inject_Z_opp. field. lra. }
    assert (Eabs : Qabs (inject_Z k - inject_Z (Z.of_N n) * 2 ^ Z.neg p)
                   == inject_Z (Z.abs (k * d - Z.of_N n)) * / inject_Z d).
    { rewrite E, Qabs_Qmult.
      rewrite (Qabs_pos (/ inject_Z d))
        by (apply Qlt_le_weak, Qinv_lt_0_compat; exact HD).
      reflexivity. }
    rewrite Eabs.
    set (t := Z.abs (k * d - Z.of_N n)) in *.
    assert (Ht : inject_Z t * / inject_Z d * inject_Z d == inject_Z t)
      by (field; lra).
    split.
    + apply (Qmult_le_r _ _ (inject_Z d) HD). rewrite Ht.
      assert (H2 : inject_Z (2 * t) <= inject_Z d) by (rewrite <- Zle_Qle; exact Hle).
      rewrite inject_Z_mult in H2. change (inject_Z 2) with 2 in H2. lra.
    + intros H.
      assert (H2 : inject_Z (2 * t) == inject_Z d).
      { rewrite inject_Z_mult. change (inject_Z 2) with 2.
        rewrite <- Ht, H. field. }
      specialize (Heven (proj1 (inject_Z_injective _ _) H2)).
      unfold k in Heven. rewrite <- Heven.
      destruct (round_half_even n (Z.neg p)); reflexivity.
Qed.

(** X11.  The whole number a tick label shows is within half a dollar of
    the exact value of the binary64 number it formats, and when it is
    exactly half a dollar away the label shows the even neighbour. *)
Theorem currency_shows_nearest_dollar
  {P : Type} (x : float) (p : P) (s : bool) (m : positive) (e : Z) :
  Prim2SF x = S754_finite s m e ->
  exists k,
    read_currency (currency x p) = Some (s, k)
    /\ Qabs (inject_Z (Z.of_N k) - value m e) <= 1 # 2
    /\ (Qabs (inject_Z (Z.of_N k) - value m e) == 1 # 2 -> N.even k = true).
Proof.
  intros Hx. exists (round_half_even (Npos m) e). split.
  - unfold currency, format_f. rewrite Hx, fixed_grouped_whole.
    cbn [N.of_nat]. rewrite N.pow_0_r, N.mul_1_r. apply read_currency_label.
  - exact (round_half_even_Q (Npos m) e).
Qed.

Lemma currency_shows_nearest_dollar_witness :
  exists k,
    read_currency (currency 2.5%float tt) = Some (false, k)
    /\ Qabs (inject_Z (Z.of_N k) - value 5629499534213120 (-51)) <= 1 # 2
    /\ (Qabs (inject_Z (Z.of_N k) - value 5629499534213120 (-51)) == 1 # 2 ->
        N.even k = true).
Proof.
  apply (currency_shows_nearest_dollar 2.5%float tt false 5629499534213120 (-51)).
  vm_compute. reflexivity.
Defined.

Local Close Scope Q_scope.
Local Open Scope string_scope.

Lemma list_ascii_of_string_app (s t : string) :
  list_ascii_of_string (s ++ t)
  = (list_ascii_of_string s ++ list_ascii_of_string t)%list.
Proof. induction s as [| a s IH]; simpl; [reflexivity | rewrite IH; reflexivity]. Qed.

Lemma string_of_list_ascii_app (l1 l2 : list ascii) :
  string_of_list_ascii (l1 ++ l2)%list
  = string_of_list_ascii l1 ++ string_of_list_ascii l2.
Proof. induction l1 as [| a l IH]; simpl; [reflexivity | rewrite IH; reflexivity]. Qed.

(** X12.  The thousands separator: a numeral of up to three digits is left
    as it is, and a longer one is the grouping of the digits before its
    last three, a comma, and its last three digits. *)
Theorem group3_every_three_digits :
  (forall s, (length s <= 3)%nat -> group3 s = s)
  /\ (forall s t, s <> EmptyString -> length t = 3%nat ->
        group3 (s ++ t) = group3 s ++ "," ++ t).
Proof.
  split.
  - intros s Hs.
    destruct s as [| a [| b [| c [| d s]]]]; try reflexivity.
    simpl in Hs. lia.
  - intros s t Hs Ht.
    destruct t as [| a [| b [| c [| d t]]]]; try discriminate Ht.
    unfold group3. rewrite list_ascii_of_string_app.
    cbn [list_ascii_of_string]. rewrite rev_app_distr. cbn [rev app].
    destruct (rev (list_ascii_of_string s)) as [| x rest] eqn:E.
    + exfalso. apply Hs.
      apply (f_equal (@rev ascii)) in E. rewrite rev_involutive in E.
      simpl in E. rewrite <- (string_of_list_ascii_of_string s), E. reflexivity.
    + change (group_rev (c :: b :: a :: x :: rest) 0)
        with (c :: b :: a :: ","%char :: group_rev (x :: rest) 0).
      cbn [rev]. rewrite <- !app_assoc. cbn [app].
      rewrite string_of_list_ascii_app. reflexivity.
Qed.

(** The texts on the script's own chart: the marker is announced at about
    100K requests and the note reads 100.0K requests and $200, the linear
    cost at the last sample. *)
Lemma script_chart_texts :
  option_map marker_label
    (break_even_point Float64.script_config Float64.requests)
  = Some "Break-even Point (~100K requests)"
  /\ option_map break_even_text
       (break_even_point Float64.script_config Float64.requests)
     = Some ("Break-even:" ++ newline ++ "100.0K requests" ++ newline ++ "$200")
  /\ currency 10020%float tt = "$10,020".
Proof. repeat split; vm_compute; reflexivity. Qed.

End PyFormatFacts.
